(** * The handshake messages of package [proto] (pkg/proto/handshake.go)

    A shallow embedding of the three message codecs [Hello], [Connect] and
    [ConnectResult], of the Go run-time behaviour they rely on (slice
    expressions that panic when out of range, fixed-width unsigned
    arithmetic that wraps), and of the two library packages the proof of
    knowledge is computed with ([crypto/sha512] and [crypto/hmac]).

    Layout: the Go fragment, the library packages, the three message types,
    then the lemmas and theorems about them.

    Not modelled: [Hello.Refresh] (it draws the challenge from crypto/rand),
    and the sharing of storage between an encoded buffer and its caller. *)

From Stdlib Require Import Strings.Byte Strings.String.
From Stdlib Require Import ZArith NArith List Bool Lia Eqdep_dec PeanoNat.
Import ListNotations.

Local Open Scope Z_scope.

(* ================================================================== *)
(** ** The fragment of Go the package is written in *)
(* ================================================================== *)

Module Go.

(** A [byte] is Go's [uint8]; its numeric value is read with [Z_of_byte]
    and the conversion [byte(x)] of an integer keeps the low eight bits. *)
Definition Z_of_byte (b : byte) : Z := Z.of_N (Byte.to_N b).

Definition byte_of_Z (z : Z) : byte :=
  match Byte.of_N (Z.to_N (z mod 256)) with
  | Some b => b
  | None => x00
  end.

(** Conversions to the fixed-width unsigned types: the value modulo [2^w]. *)
Definition uint8 (z : Z) : Z := z mod 2 ^ 8.
Definition uint16 (z : Z) : Z := z mod 2 ^ 16.

(** A slice [[]byte]: the elements in view ([len] of them) and the rest of
    the backing array behind them, up to the capacity.  The bound of a slice
    expression on a slice is its capacity, not its length. *)
Record slice : Type := mkSlice { elts : list byte; spare : list byte }.

Definition nil_slice : slice := mkSlice [] [].

(** A slice that holds exactly [l] (length and capacity [length l]). *)
Definition slice_of (l : list byte) : slice := mkSlice l [].

Definition len (s : slice) : Z := Z.of_nat (length (elts s)).
Definition cap (s : slice) : Z := Z.of_nat (length (elts s) + length (spare s)).
Definition backing (s : slice) : list byte := elts s ++ spare s.

(** [sub l lo hi] is the segment [l[lo:hi]] of a list, for [0 <= lo <= hi]. *)
Definition sub (l : list byte) (lo hi : Z) : list byte :=
  firstn (Z.to_nat (hi - lo)) (skipn (Z.to_nat lo) l).

(** The slice expression [s[lo:hi]]: [None] stands for the run-time panic
    "slice bounds out of range", raised unless [0 <= lo <= hi <= cap(s)]. *)
Definition reslice (s : slice) (lo hi : Z) : option slice :=
  if (0 <=? lo) && (lo <=? hi) && (hi <=? cap s)
  then Some (mkSlice (sub (backing s) lo hi) (skipn (Z.to_nat hi) (backing s)))
  else None.

(** The index expression [s[i]]: [None] stands for "index out of range",
    raised unless [0 <= i < len(s)]. *)
Definition index (s : slice) (i : Z) : option byte :=
  if (0 <=? i) && (i <? len s) then nth_error (elts s) (Z.to_nat i) else None.

(** A fixed-size array [[n]byte].  The size is part of the type. *)
Record array (n : nat) : Type :=
  mkArray { cells : list byte; cells_length : length cells = n }.
Arguments mkArray {n} _ _.
Arguments cells {n} _.
Arguments cells_length {n} _.

Lemma repeat_x00_length (n : nat) : length (repeat x00 n) = n.
Proof. apply repeat_length. Qed.

(** The zero value of [[n]byte]. *)
Definition zero_array (n : nat) : array n :=
  mkArray (repeat x00 n) (repeat_x00_length n).

(** A slice expression [a[lo:hi]] on an array yields a view that shares the
    array's storage: a window (offset, length) into it.  [None] is the panic
    raised unless [0 <= lo <= hi <= n]. *)
Definition window (n : nat) (lo hi : Z) : option (nat * nat) :=
  if (0 <=? lo) && (lo <=? hi) && (hi <=? Z.of_nat n)
  then Some (Z.to_nat lo, Z.to_nat (hi - lo))
  else None.

(** What the cells of an array hold after [copy(dst, src)] where [dst] is the
    window [(off, k)] of the array: the first [min k (len src)] bytes of
    [src] overwrite the cells from [off] on; nothing else changes.  (A
    window lies inside its array, so the bound [length old - off] is never
    the smallest; it makes the length of the result plain.) *)
Definition overwrite (old : list byte) (off k : nat) (src : list byte) : list byte :=
  let m := Nat.min (Nat.min k (length src)) (length old - off) in
  firstn off old ++ firstn m src ++ skipn (off + m) old.

Lemma overwrite_length (old : list byte) (off k : nat) (src : list byte) :
  length (overwrite old off k src) = length old.
Proof.
  unfold overwrite.
  rewrite !length_app, !length_firstn, length_skipn. lia.
Qed.

Lemma overwrite_cells_length {n} (a : array n) off k src :
  length (overwrite (cells a) off k src) = n.
Proof. rewrite overwrite_length. apply cells_length. Qed.

Definition copy_into {n} (a : array n) (w : nat * nat) (src : list byte) : array n :=
  mkArray (overwrite (cells a) (fst w) (snd w) src)
          (overwrite_cells_length a (fst w) (snd w) src).

(** The elements seen through a window of an array. *)
Definition view {n} (a : array n) (w : nat * nat) : list byte :=
  firstn (snd w) (skipn (fst w) (cells a)).

(** The outcome of a call of a method with a pointer receiver of type [S]:
    it returns a value and leaves the receiver in some state, or it panics
    (and the receiver keeps what was assigned before the panic). *)
Inductive outcome (S A : Type) : Type :=
| Return (a : A) (s : S)
| Panic (s : S).
Arguments Return {S A} _ _.
Arguments Panic {S A} _.

Definition M (S A : Type) : Type := S -> outcome S A.

Definition ret {S A} (a : A) : M S A := fun s => Return a s.

Definition bind {S A B} (m : M S A) (k : A -> M S B) : M S B :=
  fun s => match m s with
           | Return a s' => k a s'
           | Panic s' => Panic s'
           end.

Definition get {S} : M S S := fun s => Return s s.
Definition put {S} (s : S) : M S unit := fun _ => Return tt s.
Definition panic {S A} : M S A := fun s => Panic s.

(** A bounds-checked expression: its value, or the panic. *)
Definition checked {S A} (o : option A) : M S A :=
  match o with
  | Some a => ret a
  | None => panic
  end.

End Go.

Export Go.

Declare Scope go_scope.
Delimit Scope go_scope with go.
Notation "x <- m ;; k" := (bind m (fun x => k))
  (at level 61, m at next level, right associativity) : go_scope.
Notation "m ;;; k" := (bind m (fun _ => k))
  (at level 61, right associativity) : go_scope.

(** The error values of the package (declared beside handshake.go). *)
Inductive error : Type :=
| ErrInvalidPacket
| ErrContentTooLong
| ErrBufferTooShort.

(** A result of type [error] is an [option error]: [None] is [nil]. *)

(* ================================================================== *)
(** ** Package bytes *)
(* ================================================================== *)

Module bytes.

(** [bytes.Compare(a, b)]: lexicographic comparison, [0] when equal, [-1]
    when [a < b] and [1] when [a > b].  Only the elements in view count. *)
Fixpoint Compare (a b : list byte) : Z :=
  match a, b with
  | [], [] => 0
  | [], _ :: _ => -1
  | _ :: _, [] => 1
  | x :: a', y :: b' =>
      if Z_of_byte x <? Z_of_byte y then -1
      else if Z_of_byte y <? Z_of_byte x then 1
      else Compare a' b'
  end.

End bytes.

(* ================================================================== *)
(** ** Package encoding/binary, big-endian byte order *)
(* ================================================================== *)

Module binary.

(** [binary.BigEndian.Uint16(b)]: panics unless [len(b) >= 2]. *)
Definition Uint16 (b : slice) : option Z :=
  match index b 1, index b 0 with
  | Some b1, Some b0 => Some (Z.lor (Z_of_byte b1) (uint16 (Z.shiftl (Z_of_byte b0) 8)))
  | _, _ => None
  end.

(** [binary.BigEndian.PutUint16(b, v)] on a two-byte array: what it holds
    afterwards. *)
Definition PutUint16 (v : Z) : list byte :=
  [byte_of_Z (Z.shiftr v 8); byte_of_Z v].

End binary.

(** The 16-bit number that the bytes [hi], [lo] stand for in big-endian
    order (see [Uint16_two] for [binary.Uint16]). *)
Definition be16 (hi lo : byte) : Z := 256 * Z_of_byte hi + Z_of_byte lo.

(* ================================================================== *)
(** ** Package crypto/sha512 (FIPS 180-4, SHA-512) *)
(* ================================================================== *)

Module sha512.

(** 64-bit words, as non-negative integers below [2^64]. *)
Definition word (z : Z) : Z := z mod 2 ^ 64.
Definition add (x y : Z) : Z := word (x + y).
Definition shr (n x : Z) : Z := Z.shiftr x n.
Definition rotr (n x : Z) : Z := Z.lor (Z.shiftr x n) (word (Z.shiftl x (64 - n))).
Definition neg (x : Z) : Z := Z.lxor x (2 ^ 64 - 1).

Definition Ch (x y z : Z) : Z := Z.lxor (Z.land x y) (Z.land (neg x) z).
Definition Maj (x y z : Z) : Z :=
  Z.lxor (Z.lxor (Z.land x y) (Z.land x z)) (Z.land y z).
Definition Sigma0 (x : Z) : Z := Z.lxor (Z.lxor (rotr 28 x) (rotr 34 x)) (rotr 39 x).
Definition Sigma1 (x : Z) : Z := Z.lxor (Z.lxor (rotr 14 x) (rotr 18 x)) (rotr 41 x).
Definition sigma0 (x : Z) : Z := Z.lxor (Z.lxor (rotr 1 x) (rotr 8 x)) (shr 7 x).
Definition sigma1 (x : Z) : Z := Z.lxor (Z.lxor (rotr 19 x) (rotr 61 x)) (shr 6 x).

(** The eighty round constants. *)
Definition K : list Z :=
  [ 0x428a2f98d728ae22; 0x7137449123ef65cd; 0xb5c0fbcfec4d3b2f; 0xe9b5dba58189dbbc;
    0x3956c25bf348b538; 0x59f111f1b605d019; 0x923f82a4af194f9b; 0xab1c5ed5da6d8118;
    0xd807aa98a3030242; 0x12835b0145706fbe; 0x243185be4ee4b28c; 0x550c7dc3d5ffb4e2;
    0x72be5d74f27b896f; 0x80deb1fe3b1696b1; 0x9bdc06a725c71235; 0xc19bf174cf692694;
    0xe49b69c19ef14ad2; 0xefbe4786384f25e3; 0x0fc19dc68b8cd5b5; 0x240ca1cc77ac9c65;
    0x2de92c6f592b0275; 0x4a7484aa6ea6e483; 0x5cb0a9dcbd41fbd4; 0x76f988da831153b5;
    0x983e5152ee66dfab; 0xa831c66d2db43210; 0xb00327c898fb213f; 0xbf597fc7beef0ee4;
    0xc6e00bf33da88fc2; 0xd5a79147930aa725; 0x06ca6351e003826f; 0x142929670a0e6e70;
    0x27b70a8546d22ffc; 0x2e1b21385c26c926; 0x4d2c6dfc5ac42aed; 0x53380d139d95b3df;
    0x650a73548baf63de; 0x766a0abb3c77b2a8; 0x81c2c92e47edaee6; 0x92722c851482353b;
    0xa2bfe8a14cf10364; 0xa81a664bbc423001; 0xc24b8b70d0f89791; 0xc76c51a30654be30;
    0xd192e819d6ef5218; 0xd69906245565a910; 0xf40e35855771202a; 0x106aa07032bbd1b8;
    0x19a4c116b8d2d0c8; 0x1e376c085141ab53; 0x2748774cdf8eeb99; 0x34b0bcb5e19b48a8;
    0x391c0cb3c5c95a63; 0x4ed8aa4ae3418acb; 0x5b9cca4f7763e373; 0x682e6ff3d6b2b8a3;
    0x748f82ee5defb2fc; 0x78a5636f43172f60; 0x84c87814a1f0ab72; 0x8cc702081a6439ec;
    0x90befffa23631e28; 0xa4506cebde82bde9; 0xbef9a3f7b2c67915; 0xc67178f2e372532b;
    0xca273eceea26619c; 0xd186b8c721c0c207; 0xeada7dd6cde0eb1e; 0xf57d4f7fee6ed178;
    0x06f067aa72176fba; 0x0a637dc5a2c898a6; 0x113f9804bef90dae; 0x1b710b35131c471b;
    0x28db77f523047d84; 0x32caab7b40c72493; 0x3c9ebe0a15c9bebc; 0x431d67c49c100d4c;
    0x4cc5d4becb3e42b6; 0x597f299cfc657e2a; 0x5fcb6fab3ad6faec; 0x6c44198c4a475817 ].

(** The eight working variables, also the chaining value. *)
Record regs : Type :=
  mkRegs { ra : Z; rb : Z; rc : Z; rd : Z; re : Z; rf : Z; rg : Z; rh : Z }.

Definition init : regs :=
  mkRegs 0x6a09e667f3bcc908 0xbb67ae8584caa73b 0x3c6ef372fe94f82b 0xa54ff53a5f1d36f1
         0x510e527fade682d1 0x9b05688c2b3e6c1f 0x1f83d9abfb41bd6b 0x5be0cd19137e2179.

(** Big-endian words. *)
Definition be64 (x : Z) : list byte :=
  map (fun i => byte_of_Z (Z.shiftr x (8 * i))) [7; 6; 5; 4; 3; 2; 1; 0].

Definition word_of (bs : list byte) : Z :=
  fold_left (fun acc b => Z.lor (Z.shiftl acc 8) (Z_of_byte b)) bs 0.

(** [chunks fuel k l]: [l] cut in pieces of [k] elements ([fuel] bounds the
    number of pieces; [length l] is always enough). *)
Fixpoint chunks (fuel k : nat) (l : list byte) : list (list byte) :=
  match fuel, l with
  | O, _ => []
  | _, [] => []
  | S fuel', _ => firstn k l :: chunks fuel' k (skipn k l)
  end.

(** Padding: the bit [1], zeros, and the length in bits as a 128-bit number,
    up to a multiple of 128 bytes. *)
Definition pad (msg : list byte) : list byte :=
  let n := Z.of_nat (length msg) in
  let zeros := Z.to_nat ((111 - n) mod 128) in
  msg ++ [x80] ++ repeat x00 zeros ++ be64 (Z.shiftr (8 * n) 64) ++ be64 (8 * n).

(** One round: the schedule is kept as the window [W_t .. W_(t+15)]. *)
Definition round (st : regs * list Z) (k : Z) : regs * list Z :=
  let (r, w) := st in
  let wt := nth 0 w 0 in
  let t1 := add (add (add (add (rh r) (Sigma1 (re r))) (Ch (re r) (rf r) (rg r))) k) wt in
  let t2 := add (Sigma0 (ra r)) (Maj (ra r) (rb r) (rc r)) in
  let w16 := add (add (add (sigma1 (nth 14 w 0)) (nth 9 w 0)) (sigma0 (nth 1 w 0))) wt in
  (mkRegs (add t1 t2) (ra r) (rb r) (rc r) (add (rd r) t1) (re r) (rf r) (rg r),
   tl w ++ [w16]).

(** The compression of one 128-byte block into the chaining value. *)
Definition block (h : regs) (blk : list byte) : regs :=
  let r := fst (fold_left round K (h, map word_of (chunks 16 8 blk))) in
  mkRegs (add (ra h) (ra r)) (add (rb h) (rb r)) (add (rc h) (rc r)) (add (rd h) (rd r))
         (add (re h) (re r)) (add (rf h) (rf r)) (add (rg h) (rg r)) (add (rh h) (rh r)).

Definition digest (r : regs) : list byte :=
  be64 (ra r) ++ be64 (rb r) ++ be64 (rc r) ++ be64 (rd r) ++
  be64 (re r) ++ be64 (rf r) ++ be64 (rg r) ++ be64 (rh r).

(** [sha512.Sum512]: the digest of a message. *)
Definition Sum512 (msg : list byte) : list byte :=
  let p := pad msg in
  digest (fold_left block (chunks (length p) 128 p) init).

Definition Size : Z := 64.
Definition BlockSize : Z := 128.

(** The [hash.Hash] that [sha512.New] returns, by what it has been fed:
    [Write] adds to it, [Sum(b)] appends the digest of all of it to [b] and
    leaves it as it is, [Reset] empties it. *)
Definition t : Type := list byte.
Definition New : t := [].
Definition Write (h : t) (p : list byte) : t := h ++ p.
Definition Sum (h : t) (b : list byte) : list byte := b ++ Sum512 h.
Definition Reset (h : t) : t := [].

End sha512.

(* ================================================================== *)
(** ** Package crypto/hmac, instantiated with sha512.New *)
(* ================================================================== *)

Module hmac.

Definition xor_with (c : Z) (bs : list byte) : list byte :=
  map (fun b => byte_of_Z (Z.lxor (Z_of_byte b) c)) bs.

Record t : Type :=
  mkHmac { opad : list byte; ipad : list byte; outer : sha512.t; inner : sha512.t }.

(** [hmac.New(sha512.New, key)]: a key longer than the block size is hashed
    first; the key is copied into two zeroed blocks, which are xor-ed with
    0x36 and 0x5c; the inner hash is fed the first. *)
Definition New (key : list byte) : t :=
  let blocksize := Z.to_nat sha512.BlockSize in
  let outer0 := sha512.New in
  let inner0 := sha512.New in
  let '(outer1, key') :=
    if Z.of_nat blocksize <? Z.of_nat (length key)
    then let o := sha512.Write outer0 key in (o, sha512.Sum o [])
    else (outer0, key) in
  let block0 := overwrite (repeat x00 blocksize) 0 blocksize key' in
  let ipad := xor_with 0x36 block0 in
  let opad := xor_with 0x5c block0 in
  mkHmac opad ipad outer1 (sha512.Write inner0 ipad).

Definition Write (h : t) (p : list byte) : t :=
  mkHmac (opad h) (ipad h) (outer h) (sha512.Write (inner h) p).

(** [h.Sum(in)]: the inner digest is appended to [in], the outer hash is
    reset and fed [opad] and the inner digest, and its digest is appended to
    [in]. *)
Definition Sum (h : t) (b : list byte) : list byte :=
  let origLen := length b in
  let b' := sha512.Sum (inner h) b in
  let outer1 := sha512.Write (sha512.Reset (outer h)) (opad h) in
  let outer2 := sha512.Write outer1 (skipn origLen b') in
  sha512.Sum outer2 (firstn origLen b').

End hmac.

(** HMAC as RFC 2104 defines it, over SHA-512 (block of 128 bytes):
    [H((K0 xor opad) || H((K0 xor ipad) || text))], where [K0] is the key,
    hashed first when longer than a block, padded with zeros to a block. *)
Definition HMAC_SHA512 (key text : list byte) : list byte :=
  let k := if (128 <? length key)%nat then sha512.Sum512 key else key in
  let k0 := k ++ repeat x00 (128 - length k) in
  sha512.Sum512 (hmac.xor_with 0x5c k0 ++ sha512.Sum512 (hmac.xor_with 0x36 k0 ++ text)).

(* ================================================================== *)
(** ** Package proto: the handshake messages *)
(* ================================================================== *)

Local Open Scope go_scope.

(** Go's conversions between [string] and [[]byte] copy the bytes. *)
Definition bytes_of (s : string) : list byte := list_byte_of_string s.
Definition string_of (bs : list byte) : string := string_of_list_byte bs.

(** [append(b, xs...)], by the elements in view of its result. *)
Definition append (b xs : list byte) : list byte := b ++ xs.

(** [buf[0:0]], which is in range for every slice: no element in view. *)
Definition truncated (buf : slice) : list byte := sub (backing buf) 0 0.

Definition helloMagic : list byte := ["u"%byte; "t"%byte; "t"%byte; x00; x00; x00].

(** *** Hello *)

Module Hello.

Record t : Type := mk { Challenge : array 16 }.

Definition Len (h : t) : Z :=
  Z.of_nat (length helloMagic) + Z.of_nat (length (cells (Challenge h))).

Definition Encode (h : t) (buf : slice) : list byte :=
  let buf := truncated buf in
  let buf := append buf helloMagic in
  let buf := append buf (cells (Challenge h)) in
  buf.

Definition Decode (buf : slice) : M t (option error) :=
  h <- get ;;
  if len buf <? Len h then ret (Some ErrInvalidPacket) else
  (magic <- checked (reslice buf 0 (Z.of_nat (length helloMagic))) ;;
   if negb (bytes.Compare helloMagic (elts magic) =? 0)
   then ret (Some ErrInvalidPacket) else
   (dst <- checked (window 16 0 16) ;;
    src <- checked (reslice buf (Z.of_nat (length helloMagic))
                             (16 + Z.of_nat (length helloMagic))) ;;
    put (mk (copy_into (Challenge h) dst (elts src))) ;;;
    ret None)).

End Hello.

(** *** Connect

    [Signature] is held by its elements in view: the functions below read it
    through [len], [bytes.Compare] and [append] only.  [Encode] is given for
    a receiver whose [Signature] does not share storage with the destination
    buffer. *)

Module Connect.

Record t : Type := mk { ACLKey : string; Signature : list byte }.

Definition HMAC (c : t) (challenge psk : list byte) : list byte :=
  let h := hmac.New psk in
  let h := hmac.Write h (bytes_of "cha") in
  let h := hmac.Write h challenge in
  let h := hmac.Write h (bytes_of (String.append "acl#" (ACLKey c))) in
  hmac.Sum h [].

Definition Len (c : t) : Z :=
  Z.of_nat (length (bytes_of (ACLKey c))) + Z.of_nat (length (Signature c)).

Definition Sign (challenge psk : list byte) : M t unit :=
  c <- get ;;
  put (mk (ACLKey c) (HMAC c challenge psk)).

Definition Verify (c : t) (challenge psk : list byte) : bool :=
  bytes.Compare (Signature c) (HMAC c challenge psk) =? 0.

Definition Encode (c : t) (buf : slice) : list byte * option error :=
  let buf := truncated buf in
  let binACLKey := bytes_of (ACLKey c) in
  if (0xFFFF <? Z.of_nat (length binACLKey)) || (0xFFFF <? Z.of_nat (length (Signature c)))
  then ([], Some ErrContentTooLong)
  else
    let lengthBin := binary.PutUint16 (uint16 (Z.of_nat (length binACLKey))) in
    let buf := append buf lengthBin in
    let lengthBin := binary.PutUint16 (uint16 (Z.of_nat (length (Signature c)))) in
    let buf := append buf lengthBin in
    let buf := append buf binACLKey in
    let buf := append buf (Signature c) in
    (buf, None).

(** The bounds [4+msgLen] and [4+msgLen+signLen] of the two slice
    expressions are sums of [uint16] values, computed in [uint16]. *)
Definition Decode (buf : slice) : M t (option error) :=
  if len buf <? 4 then ret (Some ErrInvalidPacket) else
  (hd <- checked (reslice buf 0 2) ;;
   msgLen <- checked (binary.Uint16 hd) ;;
   hd <- checked (reslice buf 2 4) ;;
   signLen <- checked (binary.Uint16 hd) ;;
   if len buf <? msgLen + signLen + 4 then ret (Some ErrInvalidPacket) else
   (key <- checked (reslice buf 4 (uint16 (4 + msgLen))) ;;
    c <- get ;;
    put (mk (string_of (elts key)) (Signature c)) ;;;
    sig <- checked (reslice buf (uint16 (4 + msgLen)) (uint16 (uint16 (4 + msgLen) + signLen))) ;;
    c <- get ;;
    put (mk (ACLKey c) (elts sig)) ;;;
    ret None)).

End Connect.

(** *** ConnectResult

    [MsgLen] is an [int], here an integer; [Len] is given for values below
    the largest [int]. *)

Module ConnectResult.

Record t : Type := mk { Welcome : bool; RawMsg : array 31; MsgLen : Z }.

Definition set_Welcome (b : bool) : M t unit :=
  c <- get ;; put (mk b (RawMsg c) (MsgLen c)).
Definition set_RawMsg (a : array 31) : M t unit :=
  c <- get ;; put (mk (Welcome c) a (MsgLen c)).
Definition set_MsgLen (n : Z) : M t unit :=
  c <- get ;; put (mk (Welcome c) (RawMsg c) n).

Definition Len (c : t) : Z := 1 + MsgLen c.

Definition EncodeMessage (msg : string) : M t (option error) :=
  let raw := bytes_of msg in
  c <- get ;;
  if Z.of_nat (length (cells (RawMsg c))) <? Z.of_nat (length raw)
  then ret (Some ErrBufferTooShort) else
  (dst <- checked (window 31 0 (Z.of_nat (length raw))) ;;
   set_RawMsg (copy_into (RawMsg c) dst raw) ;;;
   set_MsgLen (Z.of_nat (length raw)) ;;;
   ret None).

Definition DecodeMessage (c : t) : string :=
  string_of (cells (RawMsg c)).

Definition Encode (buf : slice) : M t (list byte) :=
  c <- get ;;
  let buf := truncated buf in
  let buf := if Welcome c then append buf [x01] else append buf [x00] in
  let buf := append buf [byte_of_Z (Z.land (MsgLen c) 0xFF)] in
  w <- checked (window 31 0 (MsgLen c)) ;;
  let buf := append buf (view (RawMsg c) w) in
  ret buf.

(** The sum [2+msgLen] of the length check is computed in [uint8]. *)
Definition Decode (buf : slice) : M t (option error) :=
  if len buf <? 2 then ret (Some ErrInvalidPacket) else
  (b1 <- checked (index buf 1) ;;
   let msgLen := uint8 (Z_of_byte b1) in
   b0 <- checked (index buf 0) ;;
   set_Welcome (0 <? Z_of_byte b0) ;;;
   if len buf <? uint8 (2 + msgLen) then ret (Some ErrInvalidPacket) else
   (set_MsgLen msgLen ;;;
    c <- get ;;
    dst <- checked (window 31 0 (MsgLen c)) ;;
    src <- checked (reslice buf 2 (2 + MsgLen c)) ;;
    set_RawMsg (copy_into (RawMsg c) dst (elts src)) ;;;
    ret None)).

End ConnectResult.

(* ================================================================== *)
(** ** Bytes, arrays, slices: basic facts *)
(* ================================================================== *)

Lemma Z_of_byte_range (b : byte) : 0 <= Z_of_byte b < 256.
Proof.
  unfold Z_of_byte. pose proof (Byte.to_N_bounded b). lia.
Qed.

Lemma byte_of_Z_of_byte (b : byte) : byte_of_Z (Z_of_byte b) = b.
Proof.
  unfold byte_of_Z.
  rewrite Z.mod_small by apply Z_of_byte_range.
  unfold Z_of_byte. rewrite N2Z.id, Byte.of_to_N. reflexivity.
Qed.

Lemma Z_of_byte_of_Z (z : Z) : Z_of_byte (byte_of_Z z) = z mod 256.
Proof.
  unfold byte_of_Z, Z_of_byte.
  assert (Hr : 0 <= z mod 256 < 256) by (apply Z.mod_pos_bound; lia).
  destruct (Byte.of_N (Z.to_N (z mod 256))) as [b|] eqn:E.
  - apply Byte.to_of_N in E. rewrite E. apply Z2N.id; lia.
  - apply Byte.of_N_None_iff in E. lia.
Qed.

Lemma Z_of_byte_inj (x y : byte) : Z_of_byte x = Z_of_byte y -> x = y.
Proof.
  intros H. rewrite <- (byte_of_Z_of_byte x), <- (byte_of_Z_of_byte y), H.
  reflexivity.
Qed.

(** Two arrays with the same cells are equal. *)
Lemma array_ext {n} (a b : array n) : cells a = cells b -> a = b.
Proof.
  destruct a as [l Hl], b as [l' Hl']; simpl; intros <-.
  f_equal. apply UIP_dec, Nat.eq_dec.
Qed.

Lemma sub_zero (l : list byte) (hi : Z) :
  sub l 0 hi = firstn (Z.to_nat hi) l.
Proof. unfold sub. rewrite Z.sub_0_r. reflexivity. Qed.

Lemma truncated_nil (buf : slice) : truncated buf = [].
Proof. reflexivity. Qed.

(** A segment that lies within the elements in view does not depend on the
    spare capacity. *)
Lemma sub_backing (s : slice) (lo hi : Z) :
  0 <= lo <= hi -> hi <= len s -> sub (backing s) lo hi = sub (elts s) lo hi.
Proof.
  unfold sub, backing, len. intros Hlo Hhi.
  rewrite skipn_app, firstn_app, length_skipn.
  replace (Z.to_nat (hi - lo) - (length (elts s) - Z.to_nat lo))%nat with 0%nat by lia.
  rewrite firstn_O, app_nil_r. reflexivity.
Qed.

Lemma reslice_in_view (s : slice) (lo hi : Z) :
  0 <= lo <= hi -> hi <= len s ->
  exists s', reslice s lo hi = Some s' /\ elts s' = sub (elts s) lo hi.
Proof.
  intros Hlo Hhi. unfold reslice.
  assert (Hc : hi <= cap s) by (unfold cap, len in *; lia).
  replace (0 <=? lo) with true by (symmetry; apply Z.leb_le; lia).
  replace (lo <=? hi) with true by (symmetry; apply Z.leb_le; lia).
  replace (hi <=? cap s) with true by (symmetry; apply Z.leb_le; lia).
  simpl. eexists. split; [reflexivity|]. simpl. apply sub_backing; assumption.
Qed.

(** Inverted bounds panic, whatever the capacity. *)
Lemma reslice_inverted (s : slice) (lo hi : Z) : hi < lo -> reslice s lo hi = None.
Proof.
  intros H. unfold reslice.
  replace (lo <=? hi) with false by (symmetry; apply Z.leb_gt; lia).
  rewrite andb_false_r. reflexivity.
Qed.

Lemma window_in_range (n : nat) (lo hi : Z) :
  0 <= lo <= hi -> hi <= Z.of_nat n ->
  window n lo hi = Some (Z.to_nat lo, Z.to_nat (hi - lo)).
Proof.
  intros Hlo Hhi. unfold window.
  replace (0 <=? lo) with true by (symmetry; apply Z.leb_le; lia).
  replace (lo <=? hi) with true by (symmetry; apply Z.leb_le; lia).
  replace (hi <=? Z.of_nat n) with true by (symmetry; apply Z.leb_le; lia).
  reflexivity.
Qed.

Lemma window_beyond (n : nat) (lo hi : Z) : Z.of_nat n < hi -> window n lo hi = None.
Proof.
  intros H. unfold window.
  replace (hi <=? Z.of_nat n) with false by (symmetry; apply Z.leb_gt; lia).
  rewrite andb_false_r. reflexivity.
Qed.

(** [copy] from the start of an array, with a source that fits. *)
Lemma overwrite_prefix (old src : list byte) (k : nat) :
  k = length src -> (k <= length old)%nat ->
  overwrite old 0 k src = src ++ skipn k old.
Proof.
  intros -> H. unfold overwrite.
  rewrite Nat.min_id, Nat.sub_0_r, Nat.min_l by lia.
  rewrite firstn_all. reflexivity.
Qed.

Lemma index_0 (b : byte) (l spare : list byte) :
  index (mkSlice (b :: l) spare) 0 = Some b.
Proof. unfold index, len. simpl length. rewrite Nat2Z.inj_succ. 
  replace (0 <? Z.succ (Z.of_nat (length l))) with true by (symmetry; apply Z.ltb_lt; lia).
  reflexivity.
Qed.

Lemma index_1 (b0 b1 : byte) (l spare : list byte) :
  index (mkSlice (b0 :: b1 :: l) spare) 1 = Some b1.
Proof. unfold index, len. simpl length. rewrite !Nat2Z.inj_succ. 
  replace (1 <? Z.succ (Z.succ (Z.of_nat (length l)))) with true by (symmetry; apply Z.ltb_lt; lia).
  reflexivity.
Qed.

(** ** bytes.Compare *)

Lemma Compare_refl (a : list byte) : bytes.Compare a a = 0.
Proof.
  induction a as [|x a IH]; simpl; [reflexivity|].
  rewrite Z.ltb_irrefl. exact IH.
Qed.

Lemma Compare_zero_eq (a b : list byte) : bytes.Compare a b = 0 -> a = b.
Proof.
  revert b. induction a as [|x a IH]; intros [|y b]; simpl; try discriminate; auto.
  destruct (Z_of_byte x <? Z_of_byte y) eqn:E1; [discriminate|].
  destruct (Z_of_byte y <? Z_of_byte x) eqn:E2; [discriminate|].
  intros H. apply Z.ltb_ge in E1, E2.
  f_equal; [apply Z_of_byte_inj; lia | apply IH, H].
Qed.

Lemma Compare_zero_iff (a b : list byte) : bytes.Compare a b = 0 <-> a = b.
Proof.
  split; [apply Compare_zero_eq | intros ->; apply Compare_refl].
Qed.
(** ** Strings and bytes *)

Lemma bytes_of_string_of (bs : list byte) : bytes_of (string_of bs) = bs.
Proof. apply list_byte_of_string_of_list_byte. Qed.

Lemma string_of_bytes_of (s : string) : string_of (bytes_of s) = s.
Proof. apply string_of_list_byte_of_string. Qed.

Lemma string_of_length (bs : list byte) : String.length (string_of bs) = length bs.
Proof.
  unfold string_of, string_of_list_byte.
  induction bs as [|b bs IH]; simpl; [reflexivity | now rewrite IH].
Qed.

Lemma bytes_of_append (s1 s2 : string) :
  bytes_of (String.append s1 s2) = bytes_of s1 ++ bytes_of s2.
Proof.
  unfold bytes_of, list_byte_of_string.
  induction s1 as [|a s1 IH]; simpl; [reflexivity | now rewrite IH].
Qed.


(* ================================================================== *)
(** ** Big-endian lengths *)
(* ================================================================== *)

Lemma land_low_high (a b : Z) : 0 <= a < 2 ^ 8 -> Z.land a (Z.shiftl b 8) = 0.
Proof.
  intros Ha. apply Z.bits_inj'. intros n Hn.
  rewrite Z.land_spec, Z.bits_0.
  destruct (Z.ltb_spec n 8) as [Hlt|Hge].
  - rewrite Z.shiftl_spec_low by lia. apply andb_false_r.
  - destruct (Z.eq_dec a 0) as [->|Hne]; [now rewrite Z.bits_0|].
    rewrite (Z.bits_above_log2 a n); [reflexivity | lia |].
    apply Z.lt_le_trans with 8; [|exact Hge].
    apply Z.log2_lt_pow2; lia.
Qed.

Lemma be16_range (hi lo : byte) : 0 <= be16 hi lo < 65536.
Proof.
  unfold be16. pose proof (Z_of_byte_range hi). pose proof (Z_of_byte_range lo). lia.
Qed.

Lemma Uint16_two (hi lo : byte) (spare : list byte) :
  binary.Uint16 (mkSlice [hi; lo] spare) = Some (be16 hi lo).
Proof.
  unfold binary.Uint16. rewrite index_1, index_0. f_equal.
  pose proof (Z_of_byte_range hi) as Hh. pose proof (Z_of_byte_range lo) as Hl.
  unfold uint16, be16. rewrite Z.shiftl_mul_pow2 by lia.
  change (2 ^ 8) with 256. change (2 ^ 16) with 65536.
  rewrite Z.mod_small by lia.
  rewrite <- Z.lxor_lor, <- Z.add_nocarry_lxor.
  - lia.
  - replace (Z_of_byte hi * 256) with (Z.shiftl (Z_of_byte hi) 8)
      by (rewrite Z.shiftl_mul_pow2 by lia; reflexivity).
    apply land_low_high. change (2 ^ 8) with 256. lia.
  - replace (Z_of_byte hi * 256) with (Z.shiftl (Z_of_byte hi) 8)
      by (rewrite Z.shiftl_mul_pow2 by lia; reflexivity).
    apply land_low_high. change (2 ^ 8) with 256. lia.
Qed.

(** What [Uint16] reads back from what [PutUint16] wrote. *)
Lemma be16_PutUint16 (v : Z) :
  0 <= v < 65536 ->
  exists hi lo, binary.PutUint16 v = [hi; lo] /\ be16 hi lo = v.
Proof.
  intros Hv. unfold binary.PutUint16. do 2 eexists. split; [reflexivity|].
  unfold be16. rewrite !Z_of_byte_of_Z.
  rewrite Z.shiftr_div_pow2 by lia. change (2 ^ 8) with 256.
  rewrite (Z.mod_small (v / 256)).
  - pose proof (Z.div_mod v 256 ltac:(lia)). lia.
  - split; [apply Z.div_pos; lia | apply Z.div_lt_upper_bound; lia].
Qed.

(* ================================================================== *)
(** ** Connect *)
(* ================================================================== *)

Lemma Connect_Decode_short (buf : slice) (c : Connect.t) :
  len buf < 4 -> Connect.Decode buf c = Return (Some ErrInvalidPacket) c.
Proof.
  intros H. unfold Connect.Decode.
  replace (len buf <? 4) with true by (symmetry; apply Z.ltb_lt; lia).
  reflexivity.
Qed.

Lemma reslice_header_0_2 (b0 b1 b2 b3 : byte) (rest spare : list byte) :
  reslice (mkSlice (b0 :: b1 :: b2 :: b3 :: rest) spare) 0 2
  = Some (mkSlice [b0; b1] (b2 :: b3 :: rest ++ spare)).
Proof.
  unfold reslice, cap. simpl length.
  replace (2 <=? _) with true by (symmetry; apply Z.leb_le; lia).
  reflexivity.
Qed.

Lemma reslice_header_2_4 (b0 b1 b2 b3 : byte) (rest spare : list byte) :
  reslice (mkSlice (b0 :: b1 :: b2 :: b3 :: rest) spare) 2 4
  = Some (mkSlice [b2; b3] (rest ++ spare)).
Proof.
  unfold reslice, cap. simpl length.
  replace (4 <=? _) with true by (symmetry; apply Z.leb_le; lia).
  reflexivity.
Qed.

(** The run of [Decode] on a buffer of at least four bytes, step by step. *)
Lemma Connect_Decode_run (b0 b1 b2 b3 : byte) (rest spare : list byte) (c : Connect.t) :
  let buf := mkSlice (b0 :: b1 :: b2 :: b3 :: rest) spare in
  let msgLen := be16 b0 b1 in
  let signLen := be16 b2 b3 in
  Connect.Decode buf c =
    if len buf <? msgLen + signLen + 4 then Return (Some ErrInvalidPacket) c
    else match reslice buf 4 (uint16 (4 + msgLen)) with
         | None => Panic c
         | Some key =>
             match reslice buf (uint16 (4 + msgLen)) (uint16 (uint16 (4 + msgLen) + signLen)) with
             | None => Panic (Connect.mk (string_of (elts key)) (Connect.Signature c))
             | Some sig => Return None (Connect.mk (string_of (elts key)) (elts sig))
             end
         end.
Proof.
  intros buf msgLen signLen. unfold Connect.Decode.
  assert (Hlen : len buf = 4 + Z.of_nat (length rest)).
  { unfold len, buf. simpl length. lia. }
  replace (len buf <? 4) with false by (symmetry; apply Z.ltb_ge; lia).
  subst buf. unfold Go.bind, Go.get, Go.put.
  rewrite reslice_header_0_2, reslice_header_2_4.
  unfold checked, ret, panic. cbv beta iota zeta.
  rewrite !Uint16_two. cbv beta iota zeta.
  fold msgLen; fold signLen.
  destruct (_ <? msgLen + signLen + 4); [reflexivity|].
  destruct (reslice _ 4 _); [|reflexivity].
  cbn [Connect.ACLKey Connect.Signature].
  destruct (reslice _ _ _); reflexivity.
Qed.

Lemma sub_middle (a b c : list byte) :
  sub (a ++ b ++ c) (Z.of_nat (length a)) (Z.of_nat (length a) + Z.of_nat (length b)) = b.
Proof.
  unfold sub.
  replace (Z.of_nat (length a) + Z.of_nat (length b) - Z.of_nat (length a))
    with (Z.of_nat (length b)) by lia.
  rewrite !Nat2Z.id, skipn_app, skipn_all, Nat.sub_diag. simpl.
  rewrite firstn_app, firstn_all, Nat.sub_diag, firstn_O, app_nil_r. reflexivity.
Qed.

Lemma uint16_small (z : Z) : 0 <= z < 65536 -> uint16 z = z.
Proof. intros H. unfold uint16. apply Z.mod_small. change (2 ^ 16) with 65536. lia. Qed.

Lemma uint16_wrapped (z : Z) : 65536 <= z < 2 * 65536 -> uint16 z = z - 65536.
Proof.
  intros H. unfold uint16. change (2 ^ 16) with 65536.
  replace z with (z - 65536 + 1 * 65536) at 1 by lia.
  rewrite Z.mod_add by lia. apply Z.mod_small. lia.
Qed.

Section ConnectDecode.

Variables (b0 b1 b2 b3 : byte) (rest spare : list byte).

Let buf : slice := mkSlice (b0 :: b1 :: b2 :: b3 :: rest) spare.
Let msgLen : Z := be16 b0 b1.
Let signLen : Z := be16 b2 b3.

Lemma Connect_buf_len : len buf = 4 + Z.of_nat (length rest).
Proof. unfold len, buf. simpl length. lia. Qed.

(** The declared lengths and the header exceed the buffer: rejected. *)
Lemma Connect_Decode_overlong (c : Connect.t) :
  len buf < msgLen + signLen + 4 ->
  Connect.Decode buf c = Return (Some ErrInvalidPacket) c.
Proof.
  intros H. unfold buf. rewrite Connect_Decode_run. fold buf msgLen signLen.
  replace (len buf <? msgLen + signLen + 4) with true by (symmetry; apply Z.ltb_lt; lia).
  reflexivity.
Qed.

(** The declared lengths fit and the bounds stay below [2^16]: decoded. *)
Lemma Connect_Decode_in_range (c : Connect.t) :
  msgLen + signLen + 4 <= len buf ->
  4 + msgLen + signLen < 65536 ->
  Connect.Decode buf c =
  Return None (Connect.mk (string_of (sub (elts buf) 4 (4 + msgLen)))
                          (sub (elts buf) (4 + msgLen) (4 + msgLen + signLen))).
Proof.
  intros Hfit Hsmall. unfold buf at 1. rewrite Connect_Decode_run. fold buf msgLen signLen.
  pose proof (be16_range b0 b1) as Hm. pose proof (be16_range b2 b3) as Hs.
  fold msgLen in Hm. fold signLen in Hs.
  replace (len buf <? msgLen + signLen + 4) with false by (symmetry; apply Z.ltb_ge; lia).
  rewrite (uint16_small (4 + msgLen)) by lia.
  rewrite (uint16_small (4 + msgLen + signLen)) by lia.
  destruct (reslice_in_view buf 4 (4 + msgLen)) as (key & -> & ->); [lia | lia |].
  destruct (reslice_in_view buf (4 + msgLen) (4 + msgLen + signLen)) as (sig & -> & ->);
    [lia | lia |].
  reflexivity.
Qed.

(** The declared lengths fit, and a bound reaches [2^16]: the bound wraps
    below the lower bound of its slice expression, which panics.  When it is
    the second expression, [ACLKey] has been assigned by then. *)
Lemma Connect_Decode_wrapped (c : Connect.t) :
  msgLen + signLen + 4 <= len buf ->
  65536 <= 4 + msgLen + signLen ->
  Connect.Decode buf c =
  Panic (if 65536 <=? 4 + msgLen then c
         else Connect.mk (string_of (sub (elts buf) 4 (4 + msgLen))) (Connect.Signature c)).
Proof.
  intros Hfit Hbig. unfold buf at 1. rewrite Connect_Decode_run. fold buf msgLen signLen.
  pose proof (be16_range b0 b1) as Hm. pose proof (be16_range b2 b3) as Hs.
  fold msgLen in Hm. fold signLen in Hs.
  replace (len buf <? msgLen + signLen + 4) with false by (symmetry; apply Z.ltb_ge; lia).
  destruct (65536 <=? 4 + msgLen) eqn:E.
  - apply Z.leb_le in E.
    rewrite (uint16_wrapped (4 + msgLen)) by lia.
    rewrite reslice_inverted by lia. reflexivity.
  - apply Z.leb_gt in E.
    rewrite (uint16_small (4 + msgLen)) by lia.
    rewrite (uint16_wrapped (4 + msgLen + signLen)) by lia.
    destruct (reslice_in_view buf 4 (4 + msgLen)) as (key & -> & ->); [lia | lia |].
    rewrite reslice_inverted by lia. reflexivity.
Qed.

(** Whenever [Decode] returns [nil], the lengths fit and the fields are the
    two segments of the buffer that the header describes. *)
Lemma Connect_Decode_nil_exact (c c' : Connect.t) :
  Connect.Decode buf c = Return None c' ->
  msgLen + signLen + 4 <= len buf
  /\ Connect.ACLKey c' = string_of (sub (elts buf) 4 (4 + msgLen))
  /\ Connect.Signature c' = sub (elts buf) (4 + msgLen) (4 + msgLen + signLen).
Proof.
  intros H.
  destruct (Z.lt_ge_cases (len buf) (msgLen + signLen + 4)) as [Hover|Hfit].
  - rewrite Connect_Decode_overlong in H by exact Hover. discriminate.
  - destruct (Z.lt_ge_cases (4 + msgLen + signLen) 65536) as [Hsmall|Hbig].
    + rewrite Connect_Decode_in_range in H by assumption.
      injection H as <-. auto.
    + rewrite Connect_Decode_wrapped in H by assumption. discriminate.
Qed.

End ConnectDecode.

(** C2 (code does otherwise).  A buffer of 65536 bytes whose header declares
    an identity of 65532 bytes and an empty proof passes both length checks,
    yet [Decode] neither rejects it nor yields the identity
    [buf[4:65536]]: the bound [4+msgLen] wraps to 0 in [uint16] and the
    slice expression [buf[4:0]] panics.  With 40000 and 40000 declared in a
    buffer of 80004 bytes it is the second slice expression that panics,
    after [ACLKey] has been overwritten. *)
Theorem Connect_Decode_panics_on_wrapped_bounds :
  forall (c : Connect.t) (spare : list byte),
    Connect.Decode
      (mkSlice (xff :: xfc :: x00 :: x00 :: repeat x61 (Z.to_nat 65532)) spare) c
    = Panic c
    /\ Connect.Decode
         (mkSlice (x9c :: x40 :: x9c :: x40 :: repeat x61 (Z.to_nat 80000)) spare) c
       = Panic (Connect.mk (string_of (repeat x61 (Z.to_nat 40000))) (Connect.Signature c)).
Proof.
  intros c spare. split.
  - rewrite Connect_Decode_wrapped.
    + reflexivity.
    + rewrite Connect_buf_len, repeat_length, Z2Nat.id by lia.
      change (be16 xff xfc) with 65532. change (be16 x00 x00) with 0. lia.
    + change (be16 xff xfc) with 65532. change (be16 x00 x00) with 0. lia.
  - rewrite Connect_Decode_wrapped.
    + change (be16 x9c x40) with 40000.
      change (65536 <=? 4 + 40000) with false. cbv iota.
      apply (f_equal (fun k => Panic (Connect.mk (string_of k) (Connect.Signature c)))).
      unfold sub. cbn [elts].
      replace (4 + 40000 - 4) with 40000 by lia.
      change (Z.to_nat 4) with 4%nat. cbn [skipn].
      replace (Z.to_nat 80000) with (Z.to_nat 40000 + Z.to_nat 40000)%nat by lia.
      rewrite repeat_app, firstn_app, repeat_length, Nat.sub_diag, firstn_O, app_nil_r.
      apply firstn_all2. rewrite repeat_length. lia.
    + rewrite Connect_buf_len, repeat_length, Z2Nat.id by lia.
      change (be16 x9c x40) with 40000. lia.
    + change (be16 x9c x40) with 40000. lia.
Qed.

(** [Decode] rejects a buffer of fewer than four bytes, and one that the
    declared lengths and the header exceed, with [ErrInvalidPacket] and
    without touching the receiver; and whenever it returns [nil] the fields
    are exactly the segments [buf[4 : 4+idLen]] and
    [buf[4+idLen : 4+idLen+proofLen]]. *)
Theorem Connect_Decode_rejects_and_is_exact :
  forall (c : Connect.t) (buf : slice),
    (len buf < 4 -> Connect.Decode buf c = Return (Some ErrInvalidPacket) c)
    /\ (forall b0 b1 b2 b3 rest spare,
          buf = mkSlice (b0 :: b1 :: b2 :: b3 :: rest) spare ->
          (len buf < be16 b0 b1 + be16 b2 b3 + 4 ->
           Connect.Decode buf c = Return (Some ErrInvalidPacket) c)
          /\ (forall c', Connect.Decode buf c = Return None c' ->
                Connect.ACLKey c' = string_of (sub (elts buf) 4 (4 + be16 b0 b1))
                /\ Connect.Signature c'
                   = sub (elts buf) (4 + be16 b0 b1) (4 + be16 b0 b1 + be16 b2 b3))
          /\ (len buf < 65536 -> forall c', Connect.Decode buf c <> Panic c')).
Proof.
  intros c buf. split; [apply Connect_Decode_short|].
  intros b0 b1 b2 b3 rest spare ->. split; [apply Connect_Decode_overlong|]. split.
  - intros c' H. apply Connect_Decode_nil_exact in H. tauto.
  - intros Hlen c'.
    destruct (Z.lt_ge_cases
                (len (mkSlice (b0 :: b1 :: b2 :: b3 :: rest) spare))
                (be16 b0 b1 + be16 b2 b3 + 4)) as [Hover|Hfit].
    + rewrite Connect_Decode_overlong by exact Hover. discriminate.
    + rewrite Connect_Decode_in_range by lia. discriminate.
Qed.

(** The run of [Encode]. *)
Lemma Connect_Encode_run (c : Connect.t) (buf : slice) :
  let id := bytes_of (Connect.ACLKey c) in
  let sig := Connect.Signature c in
  Connect.Encode c buf =
    if (65535 <? Z.of_nat (length id)) || (65535 <? Z.of_nat (length sig))
    then ([], Some ErrContentTooLong)
    else (binary.PutUint16 (Z.of_nat (length id)) ++ binary.PutUint16 (Z.of_nat (length sig))
            ++ id ++ sig, None).
Proof.
  intros id sig. unfold Connect.Encode. fold id sig.
  change 0xFFFF with 65535.
  destruct (65535 <? Z.of_nat (length id)) eqn:E1; [reflexivity|].
  destruct (65535 <? Z.of_nat (length sig)) eqn:E2; [reflexivity|].
  apply Z.ltb_ge in E1, E2. cbn [orb].
  rewrite !uint16_small by lia.
  unfold append. rewrite truncated_nil, <- !app_assoc. reflexivity.
Qed.

(** C5.  [Encode] returns [ErrContentTooLong] exactly when the identity or
    the proof has more than 65535 bytes, and [nil] otherwise: an identity of
    65536 bytes is refused, one of 65535 bytes (with a proof within the
    limit) is encoded. *)
Theorem Connect_Encode_ContentTooLong_iff :
  forall (c : Connect.t) (buf : slice),
    let idLen := Z.of_nat (length (bytes_of (Connect.ACLKey c))) in
    let proofLen := Z.of_nat (length (Connect.Signature c)) in
    (snd (Connect.Encode c buf) = Some ErrContentTooLong
       <-> (65535 < idLen \/ 65535 < proofLen))
    /\ (snd (Connect.Encode c buf) = None <-> (idLen <= 65535 /\ proofLen <= 65535))
    /\ (idLen = 65536 -> Connect.Encode c buf = ([], Some ErrContentTooLong))
    /\ (idLen = 65535 -> proofLen <= 65535 ->
        exists out, Connect.Encode c buf = (out, None)
                    /\ Z.of_nat (length out) = 4 + idLen + proofLen).
Proof.
  intros c buf idLen proofLen.
  pose proof (Connect_Encode_run c buf) as Hrun. cbv zeta in Hrun.
  fold idLen proofLen in Hrun.
  destruct (65535 <? idLen) eqn:E1; [apply Z.ltb_lt in E1 | apply Z.ltb_ge in E1];
  (destruct (65535 <? proofLen) eqn:E2; [apply Z.ltb_lt in E2 | apply Z.ltb_ge in E2]);
  cbn [orb] in Hrun; rewrite Hrun; cbn [snd];
  (split; [split; [intros; lia || (left; lia) || (right; lia) || discriminate
                  | intros; reflexivity || lia]
          |split; [split; [intros; discriminate || lia | intros; reflexivity || lia]
          |split; [intros; reflexivity || lia |]]]).
  1-3: intros; lia.
  intros H1 _. eexists. split; [reflexivity|].
  rewrite !length_app. unfold binary.PutUint16. simpl length. unfold idLen, proofLen. lia.
Qed.

Lemma Connect_Encode_ContentTooLong_iff_witness :
  Connect.Encode (Connect.mk (string_of (repeat x61 (Z.to_nat 65536))) []) nil_slice
    = ([], Some ErrContentTooLong)
  /\ exists out,
       Connect.Encode (Connect.mk (string_of (repeat x61 (Z.to_nat 65535))) []) nil_slice
         = (out, None)
       /\ Z.of_nat (length out) = 65539.
Proof.
  assert (Hlen : forall n, 0 <= n ->
            Z.of_nat (length (bytes_of (Connect.ACLKey
                        (Connect.mk (string_of (repeat x61 (Z.to_nat n))) [])))) = n).
  { intros n Hn. cbn [Connect.ACLKey].
    rewrite bytes_of_string_of, repeat_length. apply Z2Nat.id, Hn. }
  split.
  - apply (Connect_Encode_ContentTooLong_iff
             (Connect.mk (string_of (repeat x61 (Z.to_nat 65536))) []) nil_slice).
    apply Hlen. lia.
  - destruct (proj2 (proj2 (proj2 (Connect_Encode_ContentTooLong_iff
                (Connect.mk (string_of (repeat x61 (Z.to_nat 65535))) []) nil_slice))))
      as (out & Henc & Hout).
    + apply Hlen. lia.
    + cbn [Connect.Signature length]. lia.
    + exists out. split; [exact Henc|].
      rewrite Hout, Hlen by lia. reflexivity.
Defined.

(** What [Encode] produces when both lengths are within the limit: the
    four header bytes carry the two lengths. *)
Lemma Connect_Encode_shape (c : Connect.t) (buf : slice) :
  let id := bytes_of (Connect.ACLKey c) in
  let sig := Connect.Signature c in
  Z.of_nat (length id) <= 65535 ->
  Z.of_nat (length sig) <= 65535 ->
  exists h0 h1 h2 h3,
    Connect.Encode c buf = (h0 :: h1 :: h2 :: h3 :: id ++ sig, None)
    /\ be16 h0 h1 = Z.of_nat (length id)
    /\ be16 h2 h3 = Z.of_nat (length sig).
Proof.
  intros id sig Hid Hsig.
  pose proof (Connect_Encode_run c buf) as Hrun. cbv zeta in Hrun. fold id sig in Hrun.
  replace (65535 <? Z.of_nat (length id)) with false in Hrun by (symmetry; apply Z.ltb_ge; lia).
  replace (65535 <? Z.of_nat (length sig)) with false in Hrun by (symmetry; apply Z.ltb_ge; lia).
  cbn [orb] in Hrun.
  destruct (be16_PutUint16 (Z.of_nat (length id))) as (h0 & h1 & E1 & H1); [lia|].
  destruct (be16_PutUint16 (Z.of_nat (length sig))) as (h2 & h3 & E2 & H2); [lia|].
  rewrite E1, E2 in Hrun. exists h0, h1, h2, h3. auto.
Qed.



(** Messages that [Encode] accepts and whose encoding has 65536 bytes or
    more: [Decode] of what [Encode] produced panics. *)
Lemma Connect_roundtrip_wrapped (c c0 : Connect.t) (buf : slice) (spare : list byte) :
  let idLen := Z.of_nat (length (bytes_of (Connect.ACLKey c))) in
  let proofLen := Z.of_nat (length (Connect.Signature c)) in
  idLen <= 65535 -> proofLen <= 65535 ->
  65536 <= 4 + idLen + proofLen ->
  exists out,
    Connect.Encode c buf = (out, None)
    /\ Z.of_nat (length out) = 4 + idLen + proofLen
    /\ exists c', Connect.Decode (mkSlice out spare) c0 = Panic c'
                  /\ (65532 <= idLen -> c' = c0).
Proof.
  intros idLen proofLen Hid Hsig Hbig.
  destruct (Connect_Encode_shape c buf) as (h0 & h1 & h2 & h3 & Henc & H1 & H2);
    [exact Hid | exact Hsig |].
  fold idLen in H1. fold proofLen in H2.
  eexists. split; [exact Henc|]. split.
  { simpl length. rewrite length_app. unfold idLen, proofLen. lia. }
  rewrite Connect_Decode_wrapped.
  - eexists. split; [reflexivity|]. intros H. rewrite H1.
    replace (65536 <=? 4 + idLen) with true by (symmetry; apply Z.leb_le; lia).
    reflexivity.
  - rewrite Connect_buf_len, length_app, H1, H2. unfold idLen, proofLen. lia.
  - rewrite H1, H2. lia.
Qed.

(** C6 (code does otherwise, for Connect).  A Connect whose identity has
    65532 bytes and whose proof is empty is within the limits of [Encode],
    which produces 65536 bytes; [Decode] of these bytes does not reproduce
    the message, it panics.  (The round trips of Hello, of ConnectResult
    with a recorded length from 0 to 31, and of Connect below 65536 bytes
    hold; each is a theorem of its own.) *)
Theorem Connect_roundtrip_fails_for_long_identity :
  forall (c0 : Connect.t) (buf : slice) (spare : list byte),
    let c := Connect.mk (string_of (repeat x61 (Z.to_nat 65532))) [] in
    exists out,
      Connect.Encode c buf = (out, None)
      /\ Z.of_nat (length out) = 65536
      /\ Connect.Decode (mkSlice out spare) c0 = Panic c0.
Proof.
  intros c0 buf spare c.
  assert (Hid : Z.of_nat (length (bytes_of (Connect.ACLKey c))) = 65532).
  { unfold c. cbn [Connect.ACLKey].
    rewrite bytes_of_string_of, repeat_length, Z2Nat.id by lia. reflexivity. }
  destruct (Connect_roundtrip_wrapped c c0 buf spare) as (out & Henc & Hlen & c' & Hdec & Hc').
  - rewrite Hid. lia.
  - simpl. lia.
  - rewrite Hid. simpl. lia.
  - exists out. split; [exact Henc|]. split.
    + rewrite Hlen, Hid. reflexivity.
    + rewrite Hdec, Hc'; [reflexivity | rewrite Hid; lia].
Qed.

(* ================================================================== *)
(** ** The proof of knowledge *)
(* ================================================================== *)

Lemma be64_length (x : Z) : length (sha512.be64 x) = 8%nat.
Proof. reflexivity. Qed.

Lemma Sum512_length (msg : list byte) : length (sha512.Sum512 msg) = 64%nat.
Proof.
  unfold sha512.Sum512, sha512.digest.
  rewrite !length_app, !be64_length. reflexivity.
Qed.

Lemma skipn_repeat_x00 (k n : nat) : skipn k (repeat x00 n) = repeat x00 (n - k).
Proof.
  revert n. induction k as [|k IH]; intros n.
  - rewrite Nat.sub_0_r. reflexivity.
  - destruct n as [|n]; [reflexivity|]. simpl. apply IH.
Qed.

(** [copy] of a key into a zeroed block pads the key with zeros. *)
Lemma overwrite_zero_block (key : list byte) :
  (length key <= 128)%nat ->
  overwrite (repeat x00 128) 0 128 key = key ++ repeat x00 (128 - length key).
Proof.
  intros H. unfold overwrite.
  rewrite repeat_length, Nat.sub_0_r.
  replace (Nat.min (Nat.min 128 (length key)) 128) with (length key) by lia.
  rewrite firstn_O, firstn_all, skipn_repeat_x00. reflexivity.
Qed.

(** The streaming interface of package hmac computes RFC 2104's HMAC of all
    that was written. *)
Lemma hmac_stream_is_HMAC (key : list byte) (parts : list (list byte)) :
  hmac.Sum (fold_left hmac.Write parts (hmac.New key)) []
  = HMAC_SHA512 key (concat parts).
Proof.
  assert (Hfold : forall ps h,
    fold_left hmac.Write ps h
    = hmac.mkHmac (hmac.opad h) (hmac.ipad h) (hmac.outer h) (hmac.inner h ++ concat ps)).
  { induction ps as [|p ps IH]; intros h; simpl.
    - rewrite app_nil_r. destruct h; reflexivity.
    - rewrite IH. unfold hmac.Write, sha512.Write. simpl. rewrite <- app_assoc. reflexivity. }
  rewrite Hfold. unfold hmac.Sum, HMAC_SHA512, hmac.New.
  unfold sha512.Sum, sha512.Write, sha512.Reset, sha512.New.
  change (Z.to_nat sha512.BlockSize) with 128%nat.
  cbn [app length firstn skipn].
  destruct (Z.of_nat 128 <? Z.of_nat (length key)) eqn:E.
  - apply Z.ltb_lt in E.
    replace (128 <? length key)%nat with true by (symmetry; apply Nat.ltb_lt; lia).
    cbn [hmac.opad hmac.ipad hmac.inner hmac.outer app].
    rewrite overwrite_zero_block by (rewrite Sum512_length; lia).
    reflexivity.
  - apply Z.ltb_ge in E.
    replace (128 <? length key)%nat with false by (symmetry; apply Nat.ltb_ge; lia).
    cbn [hmac.opad hmac.ipad hmac.inner hmac.outer app].
    rewrite overwrite_zero_block by lia.
    reflexivity.
Qed.

Lemma HMAC_SHA512_length (key text : list byte) : length (HMAC_SHA512 key text) = 64%nat.
Proof. unfold HMAC_SHA512. apply Sum512_length. Qed.

(** C3.  [Connect.HMAC] is HMAC-SHA-512, keyed with the PSK, of the bytes
    "cha", the challenge, "acl#" and the bytes of the identity, in this
    order; the digest has 64 bytes. *)
Theorem Connect_HMAC_is_HMAC_SHA512 :
  forall (c : Connect.t) (challenge psk : list byte),
    Connect.HMAC c challenge psk
    = HMAC_SHA512 psk (bytes_of "cha" ++ challenge ++ bytes_of "acl#"
                         ++ bytes_of (Connect.ACLKey c))
    /\ length (Connect.HMAC c challenge psk) = 64%nat.
Proof.
  intros c challenge psk.
  assert (H : Connect.HMAC c challenge psk
              = HMAC_SHA512 psk (bytes_of "cha" ++ challenge ++ bytes_of "acl#"
                                   ++ bytes_of (Connect.ACLKey c))).
  { unfold Connect.HMAC.
    change (hmac.Write (hmac.Write (hmac.Write (hmac.New psk) (bytes_of "cha")) challenge)
              (bytes_of (String.append "acl#" (Connect.ACLKey c))))
      with (fold_left hmac.Write
              [bytes_of "cha"; challenge; bytes_of (String.append "acl#" (Connect.ACLKey c))]
              (hmac.New psk)).
    rewrite hmac_stream_is_HMAC, bytes_of_append.
    cbn [concat]. rewrite app_nil_r. reflexivity. }
  split; [exact H|]. rewrite H. apply HMAC_SHA512_length.
Qed.

(** The scenario of the handshake: challenge 00..0f, identity "svc-a",
    PSK "topsecret". *)
Example Connect_HMAC_scenario :
  map Z_of_byte
    (Connect.HMAC (Connect.mk "svc-a" [])
       (map byte_of_Z [0; 1; 2; 3; 4; 5; 6; 7; 8; 9; 10; 11; 12; 13; 14; 15])
       (bytes_of "topsecret"))
  = [0x85; 0xfc; 0xb9; 0xa1; 0x32; 0xe4; 0xd9; 0xb1; 0x55; 0x93; 0x5e; 0x45; 0x35; 0x0e; 0xf4; 0x3b;
     0xb6; 0x4a; 0x0f; 0x66; 0x61; 0x3d; 0x99; 0xd4; 0x5a; 0xce; 0x98; 0x2e; 0x04; 0x81; 0x5b; 0x01;
     0x51; 0x3c; 0x5d; 0x11; 0x24; 0x6c; 0xdb; 0x8a; 0x04; 0xa9; 0x35; 0x9c; 0x07; 0x98; 0x5d; 0x07;
     0x45; 0x4f; 0x0b; 0x74; 0xfc; 0x5c; 0xb5; 0xbd; 0xa1; 0xd3; 0xd9; 0x00; 0xba; 0x95; 0x9f; 0x7b].
Proof. vm_compute. reflexivity. Qed.

(** SHA-512 and HMAC-SHA-512 on published test vectors (FIPS 180-4 "abc";
    RFC 4231, test case 1). *)
Example Sum512_abc :
  map Z_of_byte (sha512.Sum512 (bytes_of "abc"))
  = [0xdd; 0xaf; 0x35; 0xa1; 0x93; 0x61; 0x7a; 0xba; 0xcc; 0x41; 0x73; 0x49; 0xae; 0x20; 0x41; 0x31;
     0x12; 0xe6; 0xfa; 0x4e; 0x89; 0xa9; 0x7e; 0xa2; 0x0a; 0x9e; 0xee; 0xe6; 0x4b; 0x55; 0xd3; 0x9a;
     0x21; 0x92; 0x99; 0x2a; 0x27; 0x4f; 0xc1; 0xa8; 0x36; 0xba; 0x3c; 0x23; 0xa3; 0xfe; 0xeb; 0xbd;
     0x45; 0x4d; 0x44; 0x23; 0x64; 0x3c; 0xe8; 0x0e; 0x2a; 0x9a; 0xc9; 0x4f; 0xa5; 0x4c; 0xa4; 0x9f].
Proof. vm_compute. reflexivity. Qed.

Example HMAC_SHA512_rfc4231_1 :
  map Z_of_byte (HMAC_SHA512 (repeat x0b 20) (bytes_of "Hi There"))
  = [0x87; 0xaa; 0x7c; 0xde; 0xa5; 0xef; 0x61; 0x9d; 0x4f; 0xf0; 0xb4; 0x24; 0x1a; 0x1d; 0x6c; 0xb0;
     0x23; 0x79; 0xf4; 0xe2; 0xce; 0x4e; 0xc2; 0x78; 0x7a; 0xd0; 0xb3; 0x05; 0x45; 0xe1; 0x7c; 0xde;
     0xda; 0xa8; 0x33; 0xb7; 0xd6; 0xb8; 0xa7; 0x02; 0x03; 0x8b; 0x27; 0x4e; 0xae; 0xa3; 0xf4; 0xe4;
     0xbe; 0x9d; 0x91; 0x4e; 0xeb; 0x61; 0xf1; 0x70; 0x2e; 0x69; 0x6c; 0x20; 0x3a; 0x12; 0x68; 0x54].
Proof. vm_compute. reflexivity. Qed.

(** C4.  [Verify] is true exactly when [Signature] equals, byte for byte,
    what [HMAC] computes for the challenge and the PSK; and after [Sign],
    which stores that digest and leaves the identity alone, [Verify] with
    the same challenge and PSK is true. *)
Theorem Connect_Verify_iff_and_Sign_verifies :
  forall (c : Connect.t) (challenge psk : list byte),
    (Connect.Verify c challenge psk = true
       <-> Connect.Signature c = Connect.HMAC c challenge psk)
    /\ exists c',
         Connect.Sign challenge psk c = Return tt c'
         /\ Connect.ACLKey c' = Connect.ACLKey c
         /\ Connect.Signature c' = Connect.HMAC c challenge psk
         /\ Connect.Verify c' challenge psk = true.
Proof.
  intros c challenge psk.
  assert (Hiff : forall k, Connect.Verify k challenge psk = true
                           <-> Connect.Signature k = Connect.HMAC k challenge psk).
  { intros k. unfold Connect.Verify. rewrite Z.eqb_eq. apply Compare_zero_iff. }
  split; [apply Hiff|].
  eexists. split; [reflexivity|].
  cbn [Connect.ACLKey Connect.Signature].
  split; [reflexivity|]. split; [reflexivity|].
  apply Hiff. reflexivity.
Qed.

(* ================================================================== *)
(** ** Hello *)
(* ================================================================== *)

Lemma Hello_Len (h : Hello.t) : Hello.Len h = 22.
Proof.
  unfold Hello.Len. rewrite (cells_length (Hello.Challenge h)). reflexivity.
Qed.

Lemma Hello_Encode_length (h : Hello.t) (buf : slice) : length (Hello.Encode h buf) = 22%nat.
Proof.
  unfold Hello.Encode, append. rewrite truncated_nil, !length_app.
  rewrite (cells_length (Hello.Challenge h)). reflexivity.
Qed.

(** Fewer than 22 bytes: rejected, and the receiver is left as it was. *)
Lemma Hello_Decode_short (buf : slice) (h : Hello.t) :
  len buf < 22 -> Hello.Decode buf h = Return (Some ErrInvalidPacket) h.
Proof.
  intros H. unfold Hello.Decode, Go.bind, Go.get.
  rewrite Hello_Len.
  replace (len buf <? 22) with true by (symmetry; apply Z.ltb_lt; lia).
  reflexivity.
Qed.

(** Round trip of Hello: [Decode] of the 22 bytes that [Encode] produced, in
    a buffer of any capacity and into any receiver, returns [nil] and
    leaves the receiver equal to the message. *)
Theorem Hello_roundtrip :
  forall (h h0 : Hello.t) (buf : slice) (spare : list byte),
    length (Hello.Encode h buf) = 22%nat
    /\ Hello.Decode (mkSlice (Hello.Encode h buf) spare) h0 = Return None h.
Proof.
  intros h h0 buf spare. split; [apply Hello_Encode_length|].
  pose proof (cells_length (Hello.Challenge h)) as Hc.
  pose proof (cells_length (Hello.Challenge h0)) as Hc0.
  unfold Hello.Encode, append. rewrite truncated_nil. cbn [app].
  set (out := helloMagic ++ cells (Hello.Challenge h)).
  assert (Hlen : len (mkSlice out spare) = 22).
  { unfold len, out. cbn [elts]. rewrite length_app, Hc. reflexivity. }
  unfold Hello.Decode, Go.bind, Go.get, Go.put.
  rewrite Hello_Len, Hlen. change (22 <? 22) with false. cbv iota.
  change (Z.of_nat (length helloMagic)) with 6. change (16 + 6) with 22.
  destruct (reslice_in_view (mkSlice out spare) 0 6) as (magic & -> & Hm); [lia | lia |].
  destruct (reslice_in_view (mkSlice out spare) 6 22) as (src & Hsrc & Hs); [lia | lia |].
  unfold checked at 1. unfold ret at 1.
  assert (Em : elts magic = helloMagic).
  { rewrite Hm. cbn [elts]. unfold out. reflexivity. }
  rewrite Em, Compare_refl. change (negb (0 =? 0)) with false. cbv iota.
  rewrite window_in_range by (simpl; lia).
  unfold checked at 1. unfold ret at 1.
  rewrite Hsrc. unfold checked, ret.
  f_equal. destruct h as [ch]. f_equal. apply array_ext.
  cbn [Hello.Challenge cells copy_into fst snd] in *.
  assert (Es : elts src = cells ch).
  { rewrite Hs. cbn [elts]. unfold out, sub.
    change (Z.to_nat 6) with (length helloMagic).
    rewrite skipn_app, skipn_all, Nat.sub_diag. cbn [app skipn].
    apply firstn_all2. rewrite Hc. change (Z.to_nat (22 - 6)) with 16%nat. lia. }
  rewrite Es. change (Z.to_nat (16 - 0)) with 16%nat. change (Z.to_nat 0) with 0%nat.
  rewrite overwrite_prefix by lia.
  rewrite skipn_all2 by lia. apply app_nil_r.
Qed.


(* ================================================================== *)
(** ** ConnectResult *)
(* ================================================================== *)

Lemma uint8_byte (b : byte) : uint8 (Z_of_byte b) = Z_of_byte b.
Proof. unfold uint8. apply Z.mod_small. pose proof (Z_of_byte_range b). change (2 ^ 8) with 256. lia. Qed.

Lemma ConnectResult_Decode_short (buf : slice) (c : ConnectResult.t) :
  len buf < 2 ->
  ConnectResult.Decode buf c = Return (Some ErrInvalidPacket) c.
Proof.
  intros H. unfold ConnectResult.Decode.
  replace (len buf <? 2) with true by (symmetry; apply Z.ltb_lt; lia).
  reflexivity.
Qed.

(** The run of [Decode] on a buffer of at least two bytes, step by step. *)
Lemma ConnectResult_Decode_run (b0 b1 : byte) (rest spare : list byte) (c : ConnectResult.t) :
  let buf := mkSlice (b0 :: b1 :: rest) spare in
  let n := Z_of_byte b1 in
  let w := 0 <? Z_of_byte b0 in
  ConnectResult.Decode buf c =
    if len buf <? uint8 (2 + n)
    then Return (Some ErrInvalidPacket) (ConnectResult.mk w (ConnectResult.RawMsg c) (ConnectResult.MsgLen c))
    else match window 31 0 n with
         | None => Panic (ConnectResult.mk w (ConnectResult.RawMsg c) n)
         | Some dst =>
             match reslice buf 2 (2 + n) with
             | None => Panic (ConnectResult.mk w (ConnectResult.RawMsg c) n)
             | Some src =>
                 Return None (ConnectResult.mk w (copy_into (ConnectResult.RawMsg c) dst (elts src)) n)
             end
         end.
Proof.
  intros buf n w. unfold ConnectResult.Decode.
  assert (Hlen : len buf = 2 + Z.of_nat (length rest)).
  { unfold len, buf. simpl length. lia. }
  replace (len buf <? 2) with false by (symmetry; apply Z.ltb_ge; lia).
  subst buf.
  unfold ConnectResult.set_Welcome, ConnectResult.set_MsgLen, ConnectResult.set_RawMsg,
    Go.bind, Go.get, Go.put.
  rewrite index_1, index_0.
  unfold checked, ret, panic.
  cbv beta iota zeta.
  rewrite !uint8_byte.
  cbn [ConnectResult.MsgLen ConnectResult.RawMsg ConnectResult.Welcome].
  fold n; fold w.
  destruct (_ <? uint8 (2 + n)); [reflexivity|].
  destruct (window 31 0 n); [|reflexivity].
  destruct (reslice _ 2 (2 + n)); reflexivity.
Qed.

Lemma uint8_le (z : Z) : 0 <= z -> 0 <= uint8 z <= z.
Proof.
  intros H. unfold uint8. split.
  - apply Z.mod_pos_bound. lia.
  - apply Z.mod_le; lia.
Qed.

(** A declared length beyond the capacity of [RawMsg], in a buffer that
    holds as many bytes: the slice expression [c.RawMsg[:c.MsgLen]] panics,
    after [Welcome] and [MsgLen] have been assigned. *)
Lemma ConnectResult_Decode_beyond_capacity
  (b0 b1 : byte) (rest spare : list byte) (c : ConnectResult.t) :
  31 < Z_of_byte b1 ->
  Z_of_byte b1 <= Z.of_nat (length rest) ->
  ConnectResult.Decode (mkSlice (b0 :: b1 :: rest) spare) c =
  Panic (ConnectResult.mk (0 <? Z_of_byte b0) (ConnectResult.RawMsg c) (Z_of_byte b1)).
Proof.
  intros Hbig Hfit. rewrite ConnectResult_Decode_run.
  pose proof (Z_of_byte_range b1) as Hb.
  pose proof (uint8_le (2 + Z_of_byte b1) ltac:(lia)) as Hu.
  replace (len _ <? uint8 _) with false.
  2:{ symmetry. apply Z.ltb_ge. unfold len. simpl length. lia. }
  rewrite window_beyond by (simpl; lia). reflexivity.
Qed.

(** A declared length of 254 or 255 passes the length check in a buffer of
    any length, because [2+msgLen] wraps to 0 or 1. *)
Lemma ConnectResult_Decode_wrapped_check
  (b0 b1 : byte) (rest spare : list byte) (c : ConnectResult.t) :
  254 <= Z_of_byte b1 ->
  ConnectResult.Decode (mkSlice (b0 :: b1 :: rest) spare) c =
  Panic (ConnectResult.mk (0 <? Z_of_byte b0) (ConnectResult.RawMsg c) (Z_of_byte b1)).
Proof.
  intros Hbig. rewrite ConnectResult_Decode_run.
  pose proof (Z_of_byte_range b1) as Hb.
  assert (Hu : uint8 (2 + Z_of_byte b1) = Z_of_byte b1 - 254).
  { unfold uint8. change (2 ^ 8) with 256.
    replace (2 + Z_of_byte b1) with (Z_of_byte b1 - 254 + 1 * 256) by lia.
    rewrite Z.mod_add by lia. apply Z.mod_small. lia. }
  rewrite Hu.
  replace (len _ <? _) with false.
  2:{ symmetry. apply Z.ltb_ge. unfold len. simpl length. lia. }
  rewrite window_beyond by (simpl; lia). reflexivity.
Qed.

(** A declared length of at most 31 that the buffer holds: [Decode]
    succeeds, and only the first [msgLen] cells of [RawMsg] change. *)
Lemma ConnectResult_Decode_ok
  (b0 b1 : byte) (rest spare : list byte) (c : ConnectResult.t) :
  Z_of_byte b1 <= 31 ->
  Z_of_byte b1 <= Z.of_nat (length rest) ->
  exists a : array 31,
    ConnectResult.Decode (mkSlice (b0 :: b1 :: rest) spare) c =
      Return None (ConnectResult.mk (0 <? Z_of_byte b0) a (Z_of_byte b1))
    /\ cells a = firstn (Z.to_nat (Z_of_byte b1)) rest
                 ++ skipn (Z.to_nat (Z_of_byte b1)) (cells (ConnectResult.RawMsg c)).
Proof.
  intros Hsmall Hfit. rewrite ConnectResult_Decode_run.
  pose proof (Z_of_byte_range b1) as Hb.
  set (n := Z_of_byte b1) in *.
  assert (Hu : uint8 (2 + n) = 2 + n).
  { unfold uint8. apply Z.mod_small. change (2 ^ 8) with 256. lia. }
  rewrite Hu.
  replace (len _ <? _) with false.
  2:{ symmetry. apply Z.ltb_ge. unfold len. simpl length. lia. }
  rewrite window_in_range by (simpl; lia).
  destruct (reslice_in_view (mkSlice (b0 :: b1 :: rest) spare) 2 (2 + n)) as (src & Hsrc & Helts).
  { lia. } { unfold len. simpl length. lia. }
  rewrite Hsrc. eexists. split; [reflexivity|].
  unfold copy_into. cbn [cells fst snd]. rewrite Helts.
  assert (Hsub : sub (b0 :: b1 :: rest) 2 (2 + n) = firstn (Z.to_nat n) rest).
  { unfold sub. replace (2 + n - 2) with n by lia. reflexivity. }
  cbn [elts]. rewrite Hsub.
  rewrite Z.sub_0_r. change (Z.to_nat 0) with 0%nat.
  pose proof (cells_length (ConnectResult.RawMsg c)) as Hc.
  assert (Hl : length (firstn (Z.to_nat n) rest) = Z.to_nat n).
  { rewrite length_firstn. lia. }
  rewrite overwrite_prefix by lia. reflexivity.
Qed.

(** C1 (code does otherwise).  A ConnectResult buffer that declares a message
    of 32 bytes and holds them is neither rejected with [ErrInvalidPacket]
    nor decoded: [Decode] panics on the slice expression [c.RawMsg[:32]],
    with [Welcome] and [MsgLen] already overwritten.  A two-byte buffer that
    declares 254 bytes passes the length check (the sum [2+254] wraps to 0
    in [uint8]) and panics as well. *)
Theorem ConnectResult_Decode_panics_on_overlong_length :
  forall c : ConnectResult.t,
    ConnectResult.Decode (slice_of (x01 :: x20 :: repeat x41 32)) c =
      Panic (ConnectResult.mk true (ConnectResult.RawMsg c) 32)
    /\ ConnectResult.Decode (slice_of [x00; xfe]) c =
      Panic (ConnectResult.mk false (ConnectResult.RawMsg c) 254).
Proof.
  intros c. split.
  - unfold slice_of.
    rewrite ConnectResult_Decode_beyond_capacity; [reflexivity | | ]; vm_compute; congruence.
  - unfold slice_of.
    rewrite ConnectResult_Decode_wrapped_check; [reflexivity |]; vm_compute; congruence.
Qed.

(** C9.  Whenever [Decode] succeeds on a buffer whose first byte is not
    zero (2 and 255 as much as 1), it leaves [Welcome] true. *)
Theorem ConnectResult_Decode_nonzero_is_welcome
  (buf : slice) (b0 : byte) (c c' : ConnectResult.t) :
  2 <= len buf ->
  index buf 0 = Some b0 ->
  0 < Z_of_byte b0 ->
  ConnectResult.Decode buf c = Return None c' ->
  ConnectResult.Welcome c' = true.
Proof.
  intros Hlen Hidx Hpos Hrun.
  destruct buf as [[|x0 [|x1 rest]] spare];
    try (unfold len in Hlen; simpl in Hlen; lia).
  rewrite index_0 in Hidx. injection Hidx as ->.
  rewrite ConnectResult_Decode_run in Hrun.
  replace (0 <? Z_of_byte b0) with true in Hrun by (symmetry; apply Z.ltb_lt; lia).
  destruct (_ <? uint8 _); [discriminate|].
  destruct (window 31 0 _); [|discriminate].
  destruct (reslice _ 2 _); [|discriminate].
  injection Hrun as <-. reflexivity.
Qed.

Lemma ConnectResult_Decode_nonzero_is_welcome_witness :
  let fresh := ConnectResult.mk false (zero_array 31) 0 in
  (exists c', ConnectResult.Decode (slice_of [x02; x00]) fresh = Return None c'
              /\ ConnectResult.Welcome c' = true)
  /\ (exists c', ConnectResult.Decode (slice_of [xff; x00]) fresh = Return None c'
                 /\ ConnectResult.Welcome c' = true).
Proof.
  intros fresh. split.
  - destruct (ConnectResult_Decode_ok x02 x00 [] [] fresh) as (a & Hrun & _);
      [vm_compute; congruence | vm_compute; congruence |].
    eexists. split; [exact Hrun|].
    apply (ConnectResult_Decode_nonzero_is_welcome (slice_of [x02; x00]) x02 fresh _);
      [vm_compute; congruence | reflexivity | reflexivity | exact Hrun].
  - destruct (ConnectResult_Decode_ok xff x00 [] [] fresh) as (a & Hrun & _);
      [vm_compute; congruence | vm_compute; congruence |].
    eexists. split; [exact Hrun|].
    apply (ConnectResult_Decode_nonzero_is_welcome (slice_of [xff; x00]) xff fresh _);
      [vm_compute; congruence | reflexivity | reflexivity | exact Hrun].
Defined.

(** The run of [EncodeMessage]. *)
Lemma ConnectResult_EncodeMessage_run (msg : string) (c : ConnectResult.t) :
  let raw := bytes_of msg in
  ConnectResult.EncodeMessage msg c =
    if 31 <? Z.of_nat (length raw)
    then Return (Some ErrBufferTooShort) c
    else Return None
           (ConnectResult.mk (ConnectResult.Welcome c)
              (copy_into (ConnectResult.RawMsg c) (0%nat, length raw) raw)
              (Z.of_nat (length raw))).
Proof.
  intros raw. unfold ConnectResult.EncodeMessage. fold raw.
  unfold ConnectResult.set_MsgLen, ConnectResult.set_RawMsg, Go.bind, Go.get, Go.put.
  rewrite (cells_length (ConnectResult.RawMsg c)).
  change (Z.of_nat 31) with 31.
  destruct (31 <? Z.of_nat (length raw)) eqn:E; [reflexivity|].
  apply Z.ltb_ge in E.
  rewrite window_in_range by (simpl; lia).
  unfold checked, ret. cbv beta iota zeta.
  cbn [ConnectResult.MsgLen ConnectResult.RawMsg ConnectResult.Welcome].
  rewrite Z.sub_0_r, Nat2Z.id. reflexivity.
Qed.

Lemma overwrite_prefix_split (old src : list byte) :
  (length src <= length old)%nat ->
  firstn (length src) (overwrite old 0 (length src) src) = src
  /\ skipn (length src) (overwrite old 0 (length src) src) = skipn (length src) old.
Proof.
  intros H. rewrite overwrite_prefix by (reflexivity || exact H). split.
  - rewrite firstn_app, firstn_all, Nat.sub_diag, firstn_O, app_nil_r. reflexivity.
  - rewrite skipn_app, skipn_all, Nat.sub_diag. reflexivity.
Qed.

(** C7.  [EncodeMessage] returns [ErrBufferTooShort] exactly when the text
    has more than 31 bytes (so for 32 bytes, and not for 31); otherwise it
    returns [nil], the first cells of [RawMsg] hold the bytes of the text,
    the cells behind them are untouched and [MsgLen] is the number of
    bytes. *)
Theorem ConnectResult_EncodeMessage_spec :
  forall (msg : string) (c : ConnectResult.t),
    let n := length (bytes_of msg) in
    ((exists c', ConnectResult.EncodeMessage msg c = Return (Some ErrBufferTooShort) c')
       <-> (31 < n)%nat)
    /\ ((n <= 31)%nat ->
        exists c', ConnectResult.EncodeMessage msg c = Return None c'
          /\ firstn n (cells (ConnectResult.RawMsg c')) = bytes_of msg
          /\ skipn n (cells (ConnectResult.RawMsg c')) = skipn n (cells (ConnectResult.RawMsg c))
          /\ ConnectResult.MsgLen c' = Z.of_nat n
          /\ ConnectResult.Welcome c' = ConnectResult.Welcome c)
    /\ (n = 32%nat -> ConnectResult.EncodeMessage msg c = Return (Some ErrBufferTooShort) c)
    /\ (n = 31%nat -> exists c', ConnectResult.EncodeMessage msg c = Return None c').
Proof.
  intros msg c n. subst n.
  pose proof (ConnectResult_EncodeMessage_run msg c) as Hrun. cbv zeta in Hrun.
  pose proof (cells_length (ConnectResult.RawMsg c)) as Hc.
  set (raw := bytes_of msg) in *.
  assert (Hok : (length raw <= 31)%nat ->
        exists c', ConnectResult.EncodeMessage msg c = Return None c'
          /\ firstn (length raw) (cells (ConnectResult.RawMsg c')) = raw
          /\ skipn (length raw) (cells (ConnectResult.RawMsg c'))
             = skipn (length raw) (cells (ConnectResult.RawMsg c))
          /\ ConnectResult.MsgLen c' = Z.of_nat (length raw)
          /\ ConnectResult.Welcome c' = ConnectResult.Welcome c).
  { intros Hn.
    replace (31 <? Z.of_nat (length raw)) with false in Hrun
      by (symmetry; apply Z.ltb_ge; lia).
    eexists. split; [exact Hrun|].
    cbn [ConnectResult.MsgLen ConnectResult.RawMsg ConnectResult.Welcome copy_into cells fst snd].
    destruct (overwrite_prefix_split (cells (ConnectResult.RawMsg c)) raw) as [Hf Hs]; [lia|].
    repeat split; assumption. }
  split; [|split; [exact Hok|split]].
  - split.
    + intros [c' H]. rewrite Hrun in H.
      destruct (31 <? Z.of_nat (length raw)) eqn:E; [apply Z.ltb_lt in E; lia | discriminate].
    + intros Hn. exists c.
      replace (31 <? Z.of_nat (length raw)) with true in Hrun
        by (symmetry; apply Z.ltb_lt; lia).
      exact Hrun.
  - intros Hn. rewrite Hrun, Hn. reflexivity.
  - intros Hn. destruct Hok as (c' & H & _); [lia|]. exists c'. exact H.
Qed.

Lemma ConnectResult_EncodeMessage_spec_witness :
  let c := ConnectResult.mk false (zero_array 31) 0 in
  ConnectResult.EncodeMessage "0123456789abcdef0123456789abcdef" c
    = Return (Some ErrBufferTooShort) c
  /\ exists c', ConnectResult.EncodeMessage "0123456789abcdef0123456789abcde" c
                  = Return None c'.
Proof.
  intros c. split.
  - apply (ConnectResult_EncodeMessage_spec "0123456789abcdef0123456789abcdef" c).
    reflexivity.
  - apply (ConnectResult_EncodeMessage_spec "0123456789abcdef0123456789abcde" c).
    reflexivity.
Defined.

(** C10.  A call of [EncodeMessage] that returns an error returns
    [ErrBufferTooShort], for a text of more than 31 bytes, and leaves the
    receiver as it was: [RawMsg] and [MsgLen] (and [Welcome]) are unchanged. *)
Theorem ConnectResult_EncodeMessage_error_leaves_receiver
  (msg : string) (c c' : ConnectResult.t) (e : error) :
  ConnectResult.EncodeMessage msg c = Return (Some e) c' ->
  e = ErrBufferTooShort
  /\ (31 < length (bytes_of msg))%nat
  /\ c' = c
  /\ cells (ConnectResult.RawMsg c') = cells (ConnectResult.RawMsg c)
  /\ ConnectResult.MsgLen c' = ConnectResult.MsgLen c.
Proof.
  intros H. rewrite ConnectResult_EncodeMessage_run in H.
  destruct (31 <? _) eqn:E; [|discriminate].
  apply Z.ltb_lt in E. injection H as <- <-.
  repeat split; try reflexivity. lia.
Qed.

Lemma ConnectResult_EncodeMessage_error_leaves_receiver_witness :
  let c := ConnectResult.mk true (zero_array 31) 0 in
  let msg := "0123456789abcdef0123456789abcdef"%string in
  ConnectResult.EncodeMessage msg c = Return (Some ErrBufferTooShort) c
  /\ (31 < length (bytes_of msg))%nat.
Proof.
  intros c msg.
  assert (H : ConnectResult.EncodeMessage msg c = Return (Some ErrBufferTooShort) c)
    by reflexivity.
  split; [exact H|].
  exact (proj1 (proj2 (ConnectResult_EncodeMessage_error_leaves_receiver msg c c _ H))).
Defined.

(** C8.  [DecodeMessage] converts all 31 cells of [RawMsg], whatever
    [MsgLen] is: the text has 31 bytes, and after [EncodeMessage] of a text
    of [n] bytes it is that text followed by the [31 - n] cells that were
    behind it (zeros in a fresh message), so it is the text itself only for
    [n = 31]. *)
Theorem ConnectResult_DecodeMessage_whole_buffer :
  forall c : ConnectResult.t,
    bytes_of (ConnectResult.DecodeMessage c) = cells (ConnectResult.RawMsg c)
    /\ String.length (ConnectResult.DecodeMessage c) = 31%nat
    /\ (forall (w : bool) (n : Z),
          ConnectResult.DecodeMessage (ConnectResult.mk w (ConnectResult.RawMsg c) n)
          = ConnectResult.DecodeMessage c)
    /\ (forall (msg : string) (c' : ConnectResult.t),
          ConnectResult.EncodeMessage msg c = Return None c' ->
          bytes_of (ConnectResult.DecodeMessage c')
          = bytes_of msg ++ skipn (length (bytes_of msg)) (cells (ConnectResult.RawMsg c))
          /\ (ConnectResult.DecodeMessage c' = msg <-> length (bytes_of msg) = 31%nat)).
Proof.
  intros c. unfold ConnectResult.DecodeMessage.
  split; [apply bytes_of_string_of|].
  split; [rewrite string_of_length; apply cells_length|].
  split; [reflexivity|].
  intros msg c' Hrun.
  rewrite ConnectResult_EncodeMessage_run in Hrun.
  pose proof (cells_length (ConnectResult.RawMsg c)) as Hc.
  destruct (31 <? _) eqn:E; [discriminate|].
  apply Z.ltb_ge in E. injection Hrun as <-.
  cbn [ConnectResult.RawMsg copy_into cells fst snd].
  rewrite overwrite_prefix by lia.
  split; [apply bytes_of_string_of|].
  split.
  - intros H. apply (f_equal String.length) in H.
    rewrite string_of_length, length_app, length_skipn in H.
    rewrite <- (string_of_bytes_of msg), string_of_length in H. lia.
  - intros H. rewrite skipn_all2 by lia.
    rewrite app_nil_r. apply string_of_bytes_of.
Qed.

(** The text read back after "welcome" was stored in a fresh message: the
    seven bytes and twenty-four zero bytes. *)
Example ConnectResult_DecodeMessage_welcome :
  forall c',
    ConnectResult.EncodeMessage "welcome" (ConnectResult.mk false (zero_array 31) 0)
      = Return None c' ->
    bytes_of (ConnectResult.DecodeMessage c') = bytes_of "welcome" ++ repeat x00 24
    /\ ConnectResult.MsgLen c' = 7.
Proof.
  intros c' H. rewrite ConnectResult_EncodeMessage_run in H.
  vm_compute in H. injection H as <-. split; reflexivity.
Qed.
(* ================================================================== *)
(** ** Round trip of ConnectResult *)
(* ================================================================== *)

Lemma land_0xFF (z : Z) : Z.land z 0xFF = z mod 256.
Proof. change 0xFF with (Z.ones 8). rewrite Z.land_ones by lia. reflexivity. Qed.

(** The run of [Encode]. *)
Lemma ConnectResult_Encode_run (buf : slice) (c : ConnectResult.t) :
  0 <= ConnectResult.MsgLen c <= 31 ->
  ConnectResult.Encode buf c =
  Return ((if ConnectResult.Welcome c then x01 else x00)
            :: byte_of_Z (ConnectResult.MsgLen c)
            :: firstn (Z.to_nat (ConnectResult.MsgLen c)) (cells (ConnectResult.RawMsg c))) c.
Proof.
  intros Hn. unfold ConnectResult.Encode, Go.bind, Go.get.
  rewrite window_in_range by (simpl; lia).
  unfold checked, ret, append, view. rewrite truncated_nil. cbn [fst snd skipn].
  rewrite Z.sub_0_r. change (Z.to_nat 0) with 0%nat. cbn [skipn].
  f_equal. destruct (ConnectResult.Welcome c); cbn [app]; f_equal; f_equal.
  all: unfold byte_of_Z; rewrite land_0xFF, Z.mod_mod by lia; reflexivity.
Qed.

(** A recorded length outside [0, 31]: [Encode] panics. *)
Lemma ConnectResult_Encode_panics (buf : slice) (c : ConnectResult.t) :
  ConnectResult.MsgLen c < 0 \/ 31 < ConnectResult.MsgLen c ->
  ConnectResult.Encode buf c = Panic c.
Proof.
  intros Hn. unfold ConnectResult.Encode, Go.bind, Go.get.
  replace (window 31 0 (ConnectResult.MsgLen c)) with (@None (nat * nat)); [reflexivity|].
  unfold window. destruct Hn as [Hn|Hn].
  - replace (0 <=? ConnectResult.MsgLen c) with false by (symmetry; apply Z.leb_gt; lia).
    reflexivity.
  - replace (ConnectResult.MsgLen c <=? Z.of_nat 31) with false
      by (symmetry; apply Z.leb_gt; simpl; lia).
    rewrite andb_false_r. reflexivity.
Qed.

(** Round trip of ConnectResult, for a recorded length from 0 to 31:
    [Decode] of what [Encode] produced returns [nil]; [Welcome], [MsgLen]
    and the first [MsgLen] cells of [RawMsg] are those of the message, and
    the cells behind them are those the receiver had. *)
Theorem ConnectResult_roundtrip
  (c c0 : ConnectResult.t) (buf : slice) (spare : list byte) :
  0 <= ConnectResult.MsgLen c <= 31 ->
  exists out c',
    ConnectResult.Encode buf c = Return out c
    /\ ConnectResult.Decode (mkSlice out spare) c0 = Return None c'
    /\ ConnectResult.Welcome c' = ConnectResult.Welcome c
    /\ ConnectResult.MsgLen c' = ConnectResult.MsgLen c
    /\ firstn (Z.to_nat (ConnectResult.MsgLen c)) (cells (ConnectResult.RawMsg c'))
       = firstn (Z.to_nat (ConnectResult.MsgLen c)) (cells (ConnectResult.RawMsg c))
    /\ skipn (Z.to_nat (ConnectResult.MsgLen c)) (cells (ConnectResult.RawMsg c'))
       = skipn (Z.to_nat (ConnectResult.MsgLen c)) (cells (ConnectResult.RawMsg c0)).
Proof.
  intros Hn.
  pose proof (cells_length (ConnectResult.RawMsg c)) as Hc.
  pose proof (cells_length (ConnectResult.RawMsg c0)) as Hc0.
  set (n := ConnectResult.MsgLen c) in *.
  set (body := firstn (Z.to_nat n) (cells (ConnectResult.RawMsg c))).
  assert (Hbody : length body = Z.to_nat n) by (unfold body; rewrite length_firstn; lia).
  assert (Hb1 : Z_of_byte (byte_of_Z n) = n).
  { rewrite Z_of_byte_of_Z. apply Z.mod_small. lia. }
  destruct (ConnectResult_Decode_ok (if ConnectResult.Welcome c then x01 else x00)
              (byte_of_Z n) body spare c0) as (a & Hdec & Ha).
  { rewrite Hb1. lia. } { rewrite Hb1, Hbody. lia. }
  rewrite Hb1 in Hdec, Ha.
  do 2 eexists. split; [apply ConnectResult_Encode_run; exact Hn|].
  fold n body. split; [exact Hdec|].
  cbn [ConnectResult.Welcome ConnectResult.MsgLen ConnectResult.RawMsg].
  assert (Hfb : firstn (Z.to_nat n) body = body) by (apply firstn_all2; lia).
  rewrite Ha, Hfb.
  repeat split.
  - destruct (ConnectResult.Welcome c); reflexivity.
  - rewrite firstn_app, Hbody, Nat.sub_diag, firstn_O, app_nil_r.
    apply firstn_all2. lia.
  - rewrite skipn_app, Hbody, Nat.sub_diag. cbn [skipn].
    rewrite skipn_all2 by lia. reflexivity.
Qed.

Lemma ConnectResult_roundtrip_witness :
  exists c out c',
    ConnectResult.EncodeMessage "welcome" (ConnectResult.mk true (zero_array 31) 0)
      = Return None c
    /\ ConnectResult.Encode nil_slice c = Return out c
    /\ ConnectResult.Decode (mkSlice out []) (ConnectResult.mk false (zero_array 31) 0)
       = Return None c'
    /\ ConnectResult.Welcome c' = true
    /\ ConnectResult.MsgLen c' = 7
    /\ firstn 7 (cells (ConnectResult.RawMsg c')) = bytes_of "welcome".
Proof.
  eexists.
  destruct (ConnectResult_roundtrip
              (ConnectResult.mk true
                 (copy_into (zero_array 31) (0%nat, 7%nat) (bytes_of "welcome")) 7)
              (ConnectResult.mk false (zero_array 31) 0) nil_slice [])
    as (out & c' & Henc & Hdec & Hw & Hl & Hf & _).
  { simpl. lia. }
  exists out, c'. split; [reflexivity|].
  split; [exact Henc|]. split; [exact Hdec|]. split; [exact Hw|]. split; [exact Hl|].
  exact Hf.
Defined.

(* ================================================================== *)
(** ** Hello: the whole behaviour of Decode, and Len *)
(* ================================================================== *)

(** The run of [Hello.Decode], by the elements in view of the buffer. *)
Lemma Hello_Decode_run (buf : slice) (h : Hello.t) :
  Hello.Decode buf h =
    if len buf <? 22 then Return (Some ErrInvalidPacket) h
    else if negb (bytes.Compare helloMagic (sub (elts buf) 0 6) =? 0)
         then Return (Some ErrInvalidPacket) h
         else Return None
                (Hello.mk (copy_into (Hello.Challenge h) (0%nat, 16%nat) (sub (elts buf) 6 22))).
Proof.
  unfold Hello.Decode, Go.bind, Go.get, Go.put. rewrite Hello_Len.
  destruct (len buf <? 22) eqn:E; [reflexivity|]. apply Z.ltb_ge in E.
  change (Z.of_nat (length helloMagic)) with 6. change (16 + 6) with 22.
  destruct (reslice_in_view buf 0 6) as (magic & -> & Hm); [lia | lia |].
  destruct (reslice_in_view buf 6 22) as (src & Hsrc & Hs); [lia | lia |].
  unfold checked at 1. unfold ret at 1. rewrite Hm.
  destruct (negb _); [reflexivity|].
  rewrite window_in_range by (simpl; lia).
  unfold checked at 1. unfold ret at 1.
  rewrite Hsrc. unfold checked, ret. rewrite Hs. reflexivity.
Qed.

Lemma sub_length (l : list byte) (lo hi : Z) :
  0 <= lo <= hi -> hi <= Z.of_nat (length l) ->
  length (sub l lo hi) = Z.to_nat (hi - lo).
Proof.
  intros H1 H2. unfold sub. rewrite length_firstn, length_skipn. lia.
Qed.

(** What [Hello.Decode] does with a buffer of 22 bytes or more that starts
    with [helloMagic]. *)
Lemma Hello_Decode_accepts (buf : slice) (h : Hello.t) :
  22 <= len buf -> sub (elts buf) 0 6 = helloMagic ->
  exists h', Hello.Decode buf h = Return None h'
             /\ cells (Hello.Challenge h') = sub (elts buf) 6 22.
Proof.
  intros E Hm. rewrite Hello_Decode_run.
  replace (len buf <? 22) with false by (symmetry; apply Z.ltb_ge; lia).
  rewrite Hm, Compare_refl. change (negb (0 =? 0)) with false. cbv iota.
  eexists. split; [reflexivity|].
  cbn [Hello.Challenge copy_into cells fst snd].
  pose proof (cells_length (Hello.Challenge h)) as Hc.
  assert (Hs : length (sub (elts buf) 6 22) = 16%nat).
  { rewrite sub_length; [reflexivity | lia | exact E]. }
  rewrite overwrite_prefix by lia.
  rewrite skipn_all2 by lia. apply app_nil_r.
Qed.

(** What a successful [Hello.Decode] says about its buffer. *)
Lemma Hello_Decode_nil_inv (buf : slice) (h h' : Hello.t) :
  Hello.Decode buf h = Return None h' ->
  22 <= len buf /\ sub (elts buf) 0 6 = helloMagic
  /\ cells (Hello.Challenge h') = sub (elts buf) 6 22.
Proof.
  intros H.
  destruct (Z.lt_ge_cases (len buf) 22) as [Hs|Hl].
  { rewrite Hello_Decode_short in H by exact Hs. discriminate. }
  destruct (list_eq_dec Byte.byte_eq_dec (sub (elts buf) 0 6) helloMagic) as [Hm|Hm].
  - destruct (Hello_Decode_accepts buf h Hl Hm) as (h2 & Hdec & Hch).
    rewrite Hdec in H. injection H as <-. auto.
  - rewrite Hello_Decode_run in H.
    replace (len buf <? 22) with false in H by (symmetry; apply Z.ltb_ge; lia).
    destruct (bytes.Compare helloMagic (sub (elts buf) 0 6) =? 0) eqn:C.
    + apply Z.eqb_eq, Compare_zero_eq in C. congruence.
    + discriminate.
Qed.

(** [Hello.Decode] never panics.  It returns [ErrInvalidPacket], with the
    receiver as it was, exactly when the buffer has fewer than 22 bytes or
    does not start with the six bytes of [helloMagic]; otherwise it returns
    [nil] and [Challenge] is [buf[6:22]], whatever follows in the buffer. *)
Theorem Hello_Decode_spec :
  forall (buf : slice) (h : Hello.t),
    (forall h', Hello.Decode buf h <> Panic h')
    /\ ((len buf < 22 \/ sub (elts buf) 0 6 <> helloMagic)
        -> Hello.Decode buf h = Return (Some ErrInvalidPacket) h)
    /\ (22 <= len buf /\ sub (elts buf) 0 6 = helloMagic
        -> exists h', Hello.Decode buf h = Return None h'
                      /\ cells (Hello.Challenge h') = sub (elts buf) 6 22)
    /\ (forall e h', Hello.Decode buf h = Return (Some e) h'
        -> e = ErrInvalidPacket /\ h' = h
           /\ (len buf < 22 \/ sub (elts buf) 0 6 <> helloMagic)).
Proof.
  intros buf h. rewrite Hello_Decode_run.
  destruct (len buf <? 22) eqn:E; [apply Z.ltb_lt in E | apply Z.ltb_ge in E].
  - split; [discriminate|]. split; [reflexivity|]. split; [intros [H _]; lia|].
    intros e h' H. injection H as <- <-. auto.
  - destruct (bytes.Compare helloMagic (sub (elts buf) 0 6) =? 0) eqn:C; cbn [negb].
    + apply Z.eqb_eq, Compare_zero_eq in C.
      split; [discriminate|]. split; [intros [H|H]; [lia | congruence]|].
      split; [|discriminate].
      intros _. eexists. split; [reflexivity|].
      cbn [Hello.Challenge copy_into cells fst snd].
      pose proof (cells_length (Hello.Challenge h)) as Hc.
      assert (Hs : length (sub (elts buf) 6 22) = 16%nat).
      { rewrite sub_length; [reflexivity | lia | exact E]. }
      rewrite overwrite_prefix by lia.
      rewrite skipn_all2 by lia. apply app_nil_r.
    + apply Z.eqb_neq in C.
      assert (Hne : sub (elts buf) 0 6 <> helloMagic).
      { intros Heq. apply C. rewrite Heq. apply Compare_refl. }
      split; [discriminate|]. split; [reflexivity|].
      split; [intros [_ H]; congruence|].
      intros e h' H. injection H as <- <-. auto.
Qed.

(** Decoding and encoding again gives back the first 22 bytes of the
    buffer. *)
Theorem Hello_Decode_then_Encode (buf out : slice) (h h' : Hello.t) :
  Hello.Decode buf h = Return None h' ->
  Hello.Encode h' out = sub (elts buf) 0 22.
Proof.
  intros H.
  destruct (Hello_Decode_nil_inv buf h h' H) as (Hl & Hm & Hch).
  unfold Hello.Encode, append. rewrite truncated_nil. cbn [app].
  rewrite Hch, <- Hm. unfold sub.
  rewrite !Z.sub_0_r. change (Z.to_nat 0) with 0%nat. cbn [skipn].
  change (Z.to_nat (22 - 6)) with 16%nat. change (Z.to_nat 6) with 6%nat.
  change (Z.to_nat 22) with (6 + 16)%nat.
  rewrite <- (firstn_skipn 6 (firstn (6 + 16) (elts buf))).
  rewrite firstn_firstn. change (Nat.min 6 (6 + 16)) with 6%nat.
  f_equal. rewrite skipn_firstn_comm. reflexivity.
Qed.

Lemma Hello_Decode_then_Encode_witness :
  let buf := slice_of (helloMagic ++ map byte_of_Z
                         [0; 1; 2; 3; 4; 5; 6; 7; 8; 9; 10; 11; 12; 13; 14; 15; 99; 98]) in
  exists h', Hello.Decode buf (Hello.mk (zero_array 16)) = Return None h'
             /\ Hello.Encode h' nil_slice = sub (elts buf) 0 22.
Proof.
  intros buf.
  destruct (Hello_Decode_accepts buf (Hello.mk (zero_array 16))) as (h' & Hdec & _);
    [vm_compute; congruence | reflexivity |].
  exists h'. split; [exact Hdec|].
  exact (Hello_Decode_then_Encode buf nil_slice _ h' Hdec).
Defined.

(* ================================================================== *)
(** ** Connect: encoding and decoding beyond the round trip *)
(* ================================================================== *)



(** What a successful [Encode] says about its message. *)
Lemma Connect_Encode_nil_inv (c : Connect.t) (buf : slice) (out : list byte) :
  Connect.Encode c buf = (out, None) ->
  Z.of_nat (length (bytes_of (Connect.ACLKey c))) <= 65535
  /\ Z.of_nat (length (Connect.Signature c)) <= 65535.
Proof.
  intros H. rewrite Connect_Encode_run in H.
  destruct (65535 <? _) eqn:E1; [discriminate|].
  destruct (65535 <? Z.of_nat (length (Connect.Signature c))) eqn:E2; [discriminate|].
  apply Z.ltb_ge in E1, E2. auto.
Qed.



Lemma sub_app_in_view (l extra : list byte) (lo hi : Z) :
  0 <= lo <= hi -> hi <= Z.of_nat (length l) -> sub (l ++ extra) lo hi = sub l lo hi.
Proof.
  intros H1 H2. apply (sub_backing (mkSlice l extra)); [exact H1 | exact H2].
Qed.

(** A buffer that [Decode] accepts is accepted, with the same fields, when
    more bytes follow it: what lies behind the declared fields is ignored. *)
Theorem Connect_Decode_ignores_trailing_bytes
  (l extra spare spare' : list byte) (c c' : Connect.t) :
  Connect.Decode (mkSlice l spare) c = Return None c' ->
  Connect.Decode (mkSlice (l ++ extra) spare') c = Return None c'.
Proof.
  intros H.
  destruct l as [|b0 [|b1 [|b2 [|b3 rest]]]];
    try (rewrite Connect_Decode_short in H by (vm_compute; reflexivity); discriminate).
  pose proof (be16_range b0 b1) as Hm. pose proof (be16_range b2 b3) as Hs.
  destruct (Z.lt_ge_cases (len (mkSlice (b0 :: b1 :: b2 :: b3 :: rest) spare))
              (be16 b0 b1 + be16 b2 b3 + 4)) as [Hover|Hfit].
  { rewrite Connect_Decode_overlong in H by exact Hover. discriminate. }
  destruct (Z.lt_ge_cases (4 + be16 b0 b1 + be16 b2 b3) 65536) as [Hsmall|Hbig].
  2:{ rewrite Connect_Decode_wrapped in H by assumption. discriminate. }
  rewrite Connect_Decode_in_range in H by assumption.
  rewrite Connect_buf_len in Hfit.
  change ((b0 :: b1 :: b2 :: b3 :: rest) ++ extra)
    with (b0 :: b1 :: b2 :: b3 :: (rest ++ extra)).
  rewrite Connect_Decode_in_range.
  - rewrite <- H. cbn [elts].
    change (b0 :: b1 :: b2 :: b3 :: rest ++ extra)
      with ((b0 :: b1 :: b2 :: b3 :: rest) ++ extra).
    rewrite !sub_app_in_view by (simpl length; lia). reflexivity.
  - rewrite Connect_buf_len, length_app. lia.
  - exact Hsmall.
Qed.

Lemma Connect_Decode_ignores_trailing_bytes_witness :
  let l := [x00; x01; x00; x02; x61; x01; x02] in
  exists c', Connect.Decode (slice_of l) (Connect.mk "" []) = Return None c'
             /\ Connect.Decode (slice_of (l ++ [xff; xff; xff])) (Connect.mk "" [])
                = Return None c'.
Proof.
  intros l. eexists.
  assert (H : Connect.Decode (slice_of l) (Connect.mk "" [])
              = Return None (Connect.mk "a" [x01; x02])) by reflexivity.
  split; [exact H|].
  exact (Connect_Decode_ignores_trailing_bytes l [xff; xff; xff] [] [] _ _ H).
Defined.






(* ================================================================== *)
(** ** Connect: the proof of knowledge, its keys and its texts *)
(* ================================================================== *)

(** [Connect.HMAC] as one HMAC over the concatenated text. *)
Lemma Connect_HMAC_text (c : Connect.t) (challenge psk : list byte) :
  Connect.HMAC c challenge psk
  = HMAC_SHA512 psk (bytes_of "cha" ++ challenge ++ bytes_of "acl#"
                       ++ bytes_of (Connect.ACLKey c)).
Proof.
  unfold Connect.HMAC.
  change (hmac.Write (hmac.Write (hmac.Write (hmac.New psk) (bytes_of "cha")) challenge)
            (bytes_of (String.append "acl#" (Connect.ACLKey c))))
    with (fold_left hmac.Write
            [bytes_of "cha"; challenge; bytes_of (String.append "acl#" (Connect.ACLKey c))]
            (hmac.New psk)).
  rewrite hmac_stream_is_HMAC, bytes_of_append.
  cbn [concat]. rewrite app_nil_r. reflexivity.
Qed.

Lemma Connect_HMAC_length (c : Connect.t) (challenge psk : list byte) :
  length (Connect.HMAC c challenge psk) = 64%nat.
Proof. rewrite Connect_HMAC_text. apply HMAC_SHA512_length. Qed.

Lemma Connect_Verify_true_iff (c : Connect.t) (challenge psk : list byte) :
  Connect.Verify c challenge psk = true
  <-> Connect.Signature c = Connect.HMAC c challenge psk.
Proof. unfold Connect.Verify. rewrite Z.eqb_eq. apply Compare_zero_iff. Qed.

(** A message whose proof does not have 64 bytes (an empty proof, a
    truncated one) never verifies, whatever the challenge and the PSK. *)
Theorem Connect_Verify_rejects_other_lengths
  (c : Connect.t) (challenge psk : list byte) :
  length (Connect.Signature c) <> 64%nat ->
  Connect.Verify c challenge psk = false.
Proof.
  intros Hlen. destruct (Connect.Verify c challenge psk) eqn:E; [|reflexivity].
  apply Connect_Verify_true_iff in E.
  rewrite E, Connect_HMAC_length in Hlen. congruence.
Qed.

Lemma Connect_Verify_rejects_other_lengths_witness :
  Connect.Verify (Connect.mk "svc-a" []) [x00; x01] (bytes_of "topsecret") = false.
Proof.
  apply (Connect_Verify_rejects_other_lengths (Connect.mk "svc-a" [])).
  simpl. discriminate.
Defined.

(** For an identity, a challenge and a PSK, one proof verifies and no
    other: two messages with the same identity that both verify carry the
    same proof, so any change to a verifying proof makes [Verify] false. *)
Theorem Connect_Verify_unique_proof
  (c1 c2 : Connect.t) (challenge psk : list byte) :
  Connect.ACLKey c1 = Connect.ACLKey c2 ->
  Connect.Verify c1 challenge psk = true ->
  (Connect.Verify c2 challenge psk = true <-> Connect.Signature c2 = Connect.Signature c1).
Proof.
  intros Hk H1. apply Connect_Verify_true_iff in H1.
  rewrite Connect_Verify_true_iff, H1, !Connect_HMAC_text, Hk. reflexivity.
Qed.

Lemma Connect_Verify_unique_proof_witness :
  let challenge := [x00; x01] in
  let psk := bytes_of "topsecret" in
  let signed := Connect.mk "svc-a" (Connect.HMAC (Connect.mk "svc-a" []) challenge psk) in
  Connect.Verify (Connect.mk "svc-a" [xff]) challenge psk = true
  <-> [xff] = Connect.Signature signed.
Proof.
  intros challenge psk signed.
  apply (Connect_Verify_unique_proof signed (Connect.mk "svc-a" [xff]) challenge psk).
  - reflexivity.
  - apply Connect_Verify_true_iff. reflexivity.
Defined.

(** Encoding below 65536 bytes, then decoding: the encoded size and the
    decoded message. *)
Lemma Connect_roundtrip_below_65536_aux
  (c c0 : Connect.t) (buf : slice) (spare : list byte) :
  4 + Z.of_nat (length (bytes_of (Connect.ACLKey c)))
    + Z.of_nat (length (Connect.Signature c)) < 65536 ->
  exists out,
    Connect.Encode c buf = (out, None)
    /\ Z.of_nat (length out)
       = 4 + Z.of_nat (length (bytes_of (Connect.ACLKey c)))
         + Z.of_nat (length (Connect.Signature c))
    /\ Connect.Decode (mkSlice out spare) c0 = Return None c.
Proof.
  intros Hsmall.
  destruct (Connect_Encode_shape c buf) as (h0 & h1 & h2 & h3 & Henc & H1 & H2); [lia | lia |].
  eexists. split; [exact Henc|].
  set (id := bytes_of (Connect.ACLKey c)) in *.
  set (sig := Connect.Signature c) in *.
  split; [simpl length; rewrite length_app; lia|].
  rewrite Connect_Decode_in_range.
  - rewrite H1, H2. cbn [elts].
    change (h0 :: h1 :: h2 :: h3 :: id ++ sig) with ([h0; h1; h2; h3] ++ id ++ sig).
    change 4 with (Z.of_nat (length [h0; h1; h2; h3])).
    rewrite sub_middle.
    replace (([h0; h1; h2; h3] ++ id ++ sig)) with (([h0; h1; h2; h3] ++ id) ++ sig ++ [])
      by (rewrite app_nil_r, <- app_assoc; reflexivity).
    replace (Z.of_nat (length [h0; h1; h2; h3]) + Z.of_nat (length id))
      with (Z.of_nat (length ([h0; h1; h2; h3] ++ id)))
      by (rewrite length_app; lia).
    rewrite sub_middle.
    subst id sig. rewrite string_of_bytes_of. destruct c; reflexivity.
  - rewrite Connect_buf_len, length_app, H1, H2. lia.
  - rewrite H1, H2. lia.
Qed.

(** The handshake, end to end: the client signs and encodes, the server
    decodes into any receiver and verifies with the same challenge and
    PSK.  For an identity of at most 65467 bytes every step succeeds, the
    server holds the client's message and [Verify] is true. *)
Theorem Connect_handshake_verifies
  (c c0 : Connect.t) (challenge psk : list byte) (buf : slice) (spare : list byte) :
  Z.of_nat (length (bytes_of (Connect.ACLKey c))) <= 65467 ->
  exists signed out,
    Connect.Sign challenge psk c = Return tt signed
    /\ Connect.Encode signed buf = (out, None)
    /\ Z.of_nat (length out) = 4 + Z.of_nat (length (bytes_of (Connect.ACLKey c))) + 64
    /\ Connect.Decode (mkSlice out spare) c0 = Return None signed
    /\ Connect.Verify signed challenge psk = true.
Proof.
  intros Hid.
  set (signed := Connect.mk (Connect.ACLKey c) (Connect.HMAC c challenge psk)).
  assert (Hsig : length (Connect.Signature signed) = 64%nat)
    by apply Connect_HMAC_length.
  destruct (Connect_roundtrip_below_65536_aux signed c0 buf spare) as (out & Henc & Hlen & Hdec).
  { cbn [Connect.ACLKey signed]. rewrite Hsig. lia. }
  exists signed, out. split; [reflexivity|]. split; [exact Henc|].
  split; [rewrite Hlen, Hsig; reflexivity|]. split; [exact Hdec|].
  apply Connect_Verify_true_iff. reflexivity.
Qed.

Lemma Connect_handshake_verifies_witness :
  exists signed out,
    Connect.Sign (map byte_of_Z [0; 1; 2; 3; 4; 5; 6; 7; 8; 9; 10; 11; 12; 13; 14; 15])
                 (bytes_of "topsecret") (Connect.mk "svc-a" []) = Return tt signed
    /\ Connect.Encode signed nil_slice = (out, None)
    /\ Z.of_nat (length out) = 73
    /\ Connect.Decode (mkSlice out []) (Connect.mk "" []) = Return None signed
    /\ Connect.Verify signed
         (map byte_of_Z [0; 1; 2; 3; 4; 5; 6; 7; 8; 9; 10; 11; 12; 13; 14; 15])
         (bytes_of "topsecret") = true.
Proof.
  destruct (Connect_handshake_verifies (Connect.mk "svc-a" []) (Connect.mk "" [])
              (map byte_of_Z [0; 1; 2; 3; 4; 5; 6; 7; 8; 9; 10; 11; 12; 13; 14; 15])
              (bytes_of "topsecret") nil_slice [])
    as (signed & out & H1 & H2 & H3 & H4 & H5).
  { simpl. lia. }
  exists signed, out. repeat split; assumption.
Defined.

(** HMAC with a key that fits in a block: the key padded with zeros. *)
Lemma HMAC_SHA512_short_key (key text : list byte) :
  (length key <= 128)%nat ->
  HMAC_SHA512 key text
  = sha512.Sum512
      (hmac.xor_with 0x5c (key ++ repeat x00 (128 - length key))
         ++ sha512.Sum512 (hmac.xor_with 0x36 (key ++ repeat x00 (128 - length key)) ++ text)).
Proof.
  intros H. unfold HMAC_SHA512.
  replace (128 <? length key)%nat with false by (symmetry; apply Nat.ltb_ge; lia).
  reflexivity.
Qed.

(** Zero bytes at the end of a PSK of fewer than 128 bytes do not count:
    the PSK and the PSK followed by zero bytes (up to 128 bytes in all)
    give the same proof, and so verify the same messages. *)
Theorem Connect_HMAC_ignores_trailing_zeros_of_PSK
  (c : Connect.t) (challenge psk : list byte) (k : nat) :
  (length psk + k <= 128)%nat ->
  Connect.HMAC c challenge (psk ++ repeat x00 k) = Connect.HMAC c challenge psk
  /\ Connect.Verify c challenge (psk ++ repeat x00 k) = Connect.Verify c challenge psk.
Proof.
  intros Hk.
  assert (H : Connect.HMAC c challenge (psk ++ repeat x00 k) = Connect.HMAC c challenge psk).
  { rewrite !Connect_HMAC_text.
    rewrite !HMAC_SHA512_short_key by (rewrite ?length_app, ?repeat_length; lia).
    rewrite length_app, repeat_length, <- app_assoc, <- repeat_app.
    replace (k + (128 - (length psk + k)))%nat with (128 - length psk)%nat by lia.
    reflexivity. }
  split; [exact H|]. unfold Connect.Verify. rewrite H. reflexivity.
Qed.

Lemma Connect_HMAC_ignores_trailing_zeros_of_PSK_witness :
  Connect.HMAC (Connect.mk "svc-a" []) [x00; x01] (bytes_of "topsecret" ++ repeat x00 1)
  = Connect.HMAC (Connect.mk "svc-a" []) [x00; x01] (bytes_of "topsecret").
Proof.
  apply (Connect_HMAC_ignores_trailing_zeros_of_PSK (Connect.mk "svc-a" []) [x00; x01]
           (bytes_of "topsecret") 1).
  simpl. lia.
Defined.

(** A PSK of more than 128 bytes counts through its SHA-512 digest only:
    the PSK and its 64-byte digest give the same proof. *)
Theorem Connect_HMAC_long_PSK_is_hashed
  (c : Connect.t) (challenge psk : list byte) :
  (128 < length psk)%nat ->
  Connect.HMAC c challenge psk = Connect.HMAC c challenge (sha512.Sum512 psk)
  /\ Connect.Verify c challenge psk = Connect.Verify c challenge (sha512.Sum512 psk).
Proof.
  intros Hk.
  assert (H : Connect.HMAC c challenge psk = Connect.HMAC c challenge (sha512.Sum512 psk)).
  { rewrite !Connect_HMAC_text.
    rewrite (HMAC_SHA512_short_key (sha512.Sum512 psk)) by (rewrite Sum512_length; lia).
    unfold HMAC_SHA512.
    replace (128 <? length psk)%nat with true by (symmetry; apply Nat.ltb_lt; lia).
    reflexivity. }
  split; [exact H|]. unfold Connect.Verify. rewrite H. reflexivity.
Qed.

Lemma Connect_HMAC_long_PSK_is_hashed_witness :
  Connect.HMAC (Connect.mk "svc-a" []) [x00; x01] (repeat x6b 129)
  = Connect.HMAC (Connect.mk "svc-a" []) [x00; x01] (sha512.Sum512 (repeat x6b 129)).
Proof.
  apply (Connect_HMAC_long_PSK_is_hashed (Connect.mk "svc-a" []) [x00; x01] (repeat x6b 129)).
  rewrite repeat_length. lia.
Defined.

(** The text that is authenticated does not say where the challenge ends:
    a challenge that is followed by "acl#" and some bytes [y], for the
    identity [id], gives the same proof as the challenge alone for the
    identity [y ++ "acl#" ++ id].  A message signed for the one verifies
    for the other. *)
Theorem Connect_HMAC_challenge_boundary :
  forall (challenge psk sig sig' : list byte) (y id : string),
    let long := challenge ++ bytes_of "acl#" ++ bytes_of y in
    let id' := String.append y (String.append "acl#" id) in
    Connect.HMAC (Connect.mk id sig) long psk = Connect.HMAC (Connect.mk id' sig') challenge psk
    /\ Connect.Verify (Connect.mk id sig) long psk = Connect.Verify (Connect.mk id' sig) challenge psk.
Proof.
  intros challenge psk sig sig' y id long id'.
  assert (H : forall s s', Connect.HMAC (Connect.mk id s) long psk
                           = Connect.HMAC (Connect.mk id' s') challenge psk).
  { intros s s'. rewrite !Connect_HMAC_text. cbn [Connect.ACLKey].
    unfold long, id'. rewrite !bytes_of_append, <- !app_assoc. reflexivity. }
  split; [apply H|]. unfold Connect.Verify. cbn [Connect.Signature].
  rewrite (H sig sig). reflexivity.
Qed.

(* ================================================================== *)
(** ** ConnectResult: every outcome of Decode and of Encode *)
(* ================================================================== *)

Lemma uint8_no_wrap (z : Z) : 0 <= z < 256 -> uint8 z = z.
Proof. intros H. unfold uint8. apply Z.mod_small. change (2 ^ 8) with 256. lia. Qed.

(** The three outcomes of [Decode] on a buffer of at least two bytes, by
    the declared length [n = buf[1]] and the number of bytes behind the
    header.  It returns [nil] exactly when [n <= 31] and the bytes are
    there; it returns an error exactly when [n <= 253] and bytes are
    missing; in every other case (32 or more declared and present, or 254
    or 255 declared) it panics. *)
Theorem ConnectResult_Decode_outcomes :
  forall (b0 b1 : byte) (rest spare : list byte) (c : ConnectResult.t),
    let buf := mkSlice (b0 :: b1 :: rest) spare in
    let n := Z_of_byte b1 in
    let present := Z.of_nat (length rest) in
    ((exists c', ConnectResult.Decode buf c = Return None c')
       <-> (n <= 31 /\ n <= present))
    /\ ((exists e c', ConnectResult.Decode buf c = Return (Some e) c')
       <-> (n <= 253 /\ present < n))
    /\ ((exists c', ConnectResult.Decode buf c = Panic c')
       <-> (32 <= n /\ (n <= present \/ 254 <= n))).
Proof.
  intros b0 b1 rest spare c buf n present.
  pose proof (Z_of_byte_range b1) as Hb. fold n in Hb.
  assert (Hlen : len buf = 2 + present) by (unfold len, buf, present; simpl length; lia).
  destruct (Z.le_gt_cases 254 n) as [Hwrap|Hnowrap].
  - (* the length check wraps *)
    pose proof (ConnectResult_Decode_wrapped_check b0 b1 rest spare c Hwrap) as H.
    fold buf in H. rewrite H.
    split; [|split]; split;
      try (intros (? & ?); discriminate); try (intros (? & ? & ?); discriminate);
      try lia.
    intros _. eexists. reflexivity.
  - destruct (Z.lt_ge_cases present n) as [Hmiss|Hpres].
    + (* bytes are missing *)
      pose proof (ConnectResult_Decode_run b0 b1 rest spare c) as H.
      cbv zeta in H. fold buf n in H.
      rewrite (uint8_no_wrap (2 + n)) in H by lia.
      replace (len buf <? 2 + n) with true in H by (symmetry; apply Z.ltb_lt; lia).
      rewrite H.
      split; [|split]; split;
        try (intros (? & ?); discriminate); try (intros (? & ? & ?); discriminate);
        try lia.
      intros _. do 2 eexists. reflexivity.
    + destruct (Z.le_gt_cases n 31) as [Hsmall|Hbig].
      * destruct (ConnectResult_Decode_ok b0 b1 rest spare c Hsmall Hpres) as (a & H & _).
        fold buf in H. rewrite H.
        split; [|split]; split;
          try (intros (? & ?); discriminate); try (intros (? & ? & ?); discriminate);
          try lia.
        intros _. eexists. reflexivity.
      * pose proof (ConnectResult_Decode_beyond_capacity b0 b1 rest spare c Hbig Hpres) as H.
        fold buf in H. rewrite H.
        split; [|split]; split;
          try (intros (? & ?); discriminate); try (intros (? & ? & ?); discriminate);
          try lia.
        intros _. eexists. reflexivity.
Qed.

(** When [Decode] returns an error on a buffer of at least two bytes, the
    error is [ErrInvalidPacket], [RawMsg] and [MsgLen] are as they were, and
    [Welcome] has been overwritten from the first byte all the same. *)
Theorem ConnectResult_Decode_error_overwrites_Welcome
  (b0 b1 : byte) (rest spare : list byte) (c c' : ConnectResult.t) (e : error) :
  ConnectResult.Decode (mkSlice (b0 :: b1 :: rest) spare) c = Return (Some e) c' ->
  e = ErrInvalidPacket
  /\ ConnectResult.Welcome c' = (0 <? Z_of_byte b0)
  /\ ConnectResult.RawMsg c' = ConnectResult.RawMsg c
  /\ ConnectResult.MsgLen c' = ConnectResult.MsgLen c.
Proof.
  intros H. rewrite ConnectResult_Decode_run in H.
  destruct (_ <? uint8 _).
  - injection H as <- <-. auto.
  - destruct (window 31 0 _); [|discriminate].
    destruct (reslice _ 2 _); discriminate.
Qed.

Lemma ConnectResult_Decode_error_overwrites_Welcome_witness :
  let c := ConnectResult.mk false (zero_array 31) 0 in
  exists c', ConnectResult.Decode (slice_of [x01; x05; x61]) c
             = Return (Some ErrInvalidPacket) c'
             /\ ConnectResult.Welcome c' = true
             /\ ConnectResult.Welcome c = false.
Proof.
  intros c. eexists.
  assert (H : ConnectResult.Decode (slice_of [x01; x05; x61]) c
              = Return (Some ErrInvalidPacket) (ConnectResult.mk true (zero_array 31) 0))
    by reflexivity.
  split; [exact H|]. split; [|reflexivity].
  exact (proj1 (proj2 (ConnectResult_Decode_error_overwrites_Welcome _ _ _ _ _ _ _ H))).
Defined.

(** [Encode] returns exactly when [MsgLen] is from 0 to 31, and then it
    produces [2 + MsgLen] bytes: the byte 1 or 0 for [Welcome], the byte
    [MsgLen], and the first [MsgLen] cells of [RawMsg].  For any other
    [MsgLen] it panics.  The receiver is never changed. *)
Theorem ConnectResult_Encode_outcomes :
  forall (buf : slice) (c : ConnectResult.t),
    let n := ConnectResult.MsgLen c in
    (0 <= n <= 31 ->
       exists out, ConnectResult.Encode buf c = Return out c
         /\ Z.of_nat (length out) = 2 + n
         /\ out = (if ConnectResult.Welcome c then x01 else x00) :: byte_of_Z n
                    :: firstn (Z.to_nat n) (cells (ConnectResult.RawMsg c)))
    /\ (n < 0 \/ 31 < n -> ConnectResult.Encode buf c = Panic c).
Proof.
  intros buf c n. split.
  - intros Hn. eexists. split; [apply ConnectResult_Encode_run; exact Hn|].
    split; [|reflexivity].
    pose proof (cells_length (ConnectResult.RawMsg c)) as Hc.
    simpl length. rewrite length_firstn. fold n. lia.
  - apply ConnectResult_Encode_panics.
Qed.

(** [MsgLen] is from 0 to 31 after every successful [EncodeMessage] and
    every successful [Decode], whatever it was before; so [Encode] on the
    message they leave returns. *)
Theorem ConnectResult_MsgLen_in_range_after_success :
  forall (c c' : ConnectResult.t),
    ((exists msg, ConnectResult.EncodeMessage msg c = Return None c')
     \/ (exists buf, ConnectResult.Decode buf c = Return None c')) ->
    0 <= ConnectResult.MsgLen c' <= 31
    /\ forall out, exists bs, ConnectResult.Encode out c' = Return bs c'.
Proof.
  intros c c' H.
  assert (Hr : 0 <= ConnectResult.MsgLen c' <= 31).
  { destruct H as [[msg H]|[buf H]].
    - rewrite ConnectResult_EncodeMessage_run in H.
      destruct (31 <? _) eqn:E; [discriminate|]. apply Z.ltb_ge in E.
      injection H as <-. cbn [ConnectResult.MsgLen]. lia.
    - destruct buf as [[|b0 [|b1 rest]] spare];
        try (rewrite ConnectResult_Decode_short in H by (vm_compute; reflexivity);
             discriminate).
      pose proof (Z_of_byte_range b1) as Hb.
      rewrite ConnectResult_Decode_run in H.
      destruct (_ <? uint8 _); [discriminate|].
      destruct (window 31 0 (Z_of_byte b1)) eqn:W; [|discriminate].
      destruct (reslice _ 2 _); [|discriminate].
      injection H as <-. cbn [ConnectResult.MsgLen].
      destruct (Z.le_gt_cases (Z_of_byte b1) 31) as [Hs|Hbg]; [lia|].
      rewrite window_beyond in W by (simpl; lia). discriminate. }
  split; [exact Hr|].
  intros out. eexists. apply ConnectResult_Encode_run. exact Hr.
Qed.

Lemma ConnectResult_MsgLen_in_range_after_success_witness :
  exists c',
    ConnectResult.Decode (slice_of [x01; x02; x61; x62]) (ConnectResult.mk false (zero_array 31) 99)
    = Return None c'
    /\ 0 <= ConnectResult.MsgLen c' <= 31.
Proof.
  destruct (ConnectResult_Decode_ok x01 x02 [x61; x62] []
              (ConnectResult.mk false (zero_array 31) 99)) as (a & H & _);
    [vm_compute; congruence | vm_compute; congruence |].
  eexists. split; [exact H|].
  refine (proj1 (ConnectResult_MsgLen_in_range_after_success _ _ _)).
  right. exists (slice_of [x01; x02; x61; x62]). exact H.
Defined.

(* ================================================================== *)
(** ** ConnectResult: messages stored, sent and read back *)
(* ================================================================== *)

(** [EncodeMessage] does not clear what a longer message left: after a
    message [m1] and then one [m2] that is not longer, [DecodeMessage]
    returns [m2], then the end of [m1] from the length of [m2] on, then the
    cells that were behind [m1]. *)
Theorem ConnectResult_EncodeMessage_keeps_stale_tail
  (m1 m2 : string) (c c1 c2 : ConnectResult.t) :
  ConnectResult.EncodeMessage m1 c = Return None c1 ->
  ConnectResult.EncodeMessage m2 c1 = Return None c2 ->
  (length (bytes_of m2) <= length (bytes_of m1))%nat ->
  bytes_of (ConnectResult.DecodeMessage c2)
  = bytes_of m2 ++ skipn (length (bytes_of m2)) (bytes_of m1)
      ++ skipn (length (bytes_of m1)) (cells (ConnectResult.RawMsg c))
  /\ ConnectResult.MsgLen c2 = Z.of_nat (length (bytes_of m2)).
Proof.
  intros H1 H2 Hle.
  pose proof (cells_length (ConnectResult.RawMsg c)) as Hc.
  rewrite ConnectResult_EncodeMessage_run in H1.
  destruct (31 <? _) eqn:E1; [discriminate|]. apply Z.ltb_ge in E1.
  injection H1 as <-.
  rewrite ConnectResult_EncodeMessage_run in H2.
  destruct (31 <? _) eqn:E2; [discriminate|]. apply Z.ltb_ge in E2.
  injection H2 as <-.
  unfold ConnectResult.DecodeMessage.
  cbn [ConnectResult.RawMsg ConnectResult.MsgLen copy_into cells fst snd].
  split; [|reflexivity].
  rewrite bytes_of_string_of.
  rewrite (overwrite_prefix (cells (ConnectResult.RawMsg c)) (bytes_of m1)) by lia.
  rewrite overwrite_prefix by (rewrite ?length_app, ?length_skipn; lia).
  rewrite skipn_app.
  replace (length (bytes_of m2) - length (bytes_of m1))%nat with 0%nat by lia.
  reflexivity.
Qed.

Lemma ConnectResult_EncodeMessage_keeps_stale_tail_witness :
  exists c1 c2,
    ConnectResult.EncodeMessage "welcome" (ConnectResult.mk true (zero_array 31) 0)
      = Return None c1
    /\ ConnectResult.EncodeMessage "no" c1 = Return None c2
    /\ bytes_of (ConnectResult.DecodeMessage c2) = bytes_of "nolcome" ++ repeat x00 24.
Proof.
  do 2 eexists.
  assert (H1 : ConnectResult.EncodeMessage "welcome" (ConnectResult.mk true (zero_array 31) 0)
               = Return None
                   (ConnectResult.mk true
                      (copy_into (zero_array 31) (0%nat, 7%nat) (bytes_of "welcome")) 7))
    by reflexivity.
  assert (H2 : ConnectResult.EncodeMessage "no"
                 (ConnectResult.mk true
                    (copy_into (zero_array 31) (0%nat, 7%nat) (bytes_of "welcome")) 7)
               = Return None
                   (ConnectResult.mk true
                      (copy_into (copy_into (zero_array 31) (0%nat, 7%nat) (bytes_of "welcome"))
                         (0%nat, 2%nat) (bytes_of "no")) 2))
    by reflexivity.
  split; [exact H1|]. split; [exact H2|].
  exact (proj1 (ConnectResult_EncodeMessage_keeps_stale_tail _ _ _ _ _ H1 H2
                  ltac:(simpl; lia))).
Defined.

(** The outcome message, end to end: the sender stores a text of at most 31
    bytes and encodes; the receiver decodes into a message whose [RawMsg]
    is zero and reads the text back.  Every step succeeds, [Welcome] and
    the length arrive, and the text read back is the text sent followed by
    zero bytes up to 31 bytes. *)
Theorem ConnectResult_message_end_to_end
  (msg : string) (c r : ConnectResult.t) (buf : slice) (spare : list byte) :
  (length (bytes_of msg) <= 31)%nat ->
  cells (ConnectResult.RawMsg r) = repeat x00 31 ->
  exists c1 out r',
    ConnectResult.EncodeMessage msg c = Return None c1
    /\ ConnectResult.Encode buf c1 = Return out c1
    /\ Z.of_nat (length out) = 2 + Z.of_nat (length (bytes_of msg))
    /\ ConnectResult.Decode (mkSlice out spare) r = Return None r'
    /\ ConnectResult.Welcome r' = ConnectResult.Welcome c
    /\ ConnectResult.MsgLen r' = Z.of_nat (length (bytes_of msg))
    /\ bytes_of (ConnectResult.DecodeMessage r')
       = bytes_of msg ++ repeat x00 (31 - length (bytes_of msg)).
Proof.
  intros Hn Hr.
  pose proof (cells_length (ConnectResult.RawMsg c)) as Hc.
  set (raw := bytes_of msg) in *. set (n := length raw) in *.
  pose proof (ConnectResult_EncodeMessage_run msg c) as H1. cbv zeta in H1.
  fold raw n in H1.
  replace (31 <? Z.of_nat n) with false in H1 by (symmetry; apply Z.ltb_ge; lia).
  set (c1 := ConnectResult.mk (ConnectResult.Welcome c)
               (copy_into (ConnectResult.RawMsg c) (0%nat, n) raw) (Z.of_nat n)) in *.
  assert (Hcells : firstn n (cells (ConnectResult.RawMsg c1)) = raw).
  { unfold c1. cbn [ConnectResult.RawMsg copy_into cells fst snd].
    apply (overwrite_prefix_split (cells (ConnectResult.RawMsg c)) raw). fold n. lia. }
  pose proof (ConnectResult_Encode_run buf c1) as H2.
  cbn [ConnectResult.MsgLen c1] in H2. specialize (H2 ltac:(lia)).
  fold c1 in H2. rewrite Nat2Z.id in H2. rewrite Hcells in H2.
  assert (Hb1 : Z_of_byte (byte_of_Z (Z.of_nat n)) = Z.of_nat n).
  { rewrite Z_of_byte_of_Z. apply Z.mod_small. lia. }
  destruct (ConnectResult_Decode_ok
              (if ConnectResult.Welcome c1 then x01 else x00)
              (byte_of_Z (Z.of_nat n)) raw spare r) as (a & H3 & Ha).
  { rewrite Hb1. lia. } { rewrite Hb1. fold n. lia. }
  rewrite Hb1 in H3, Ha. rewrite Nat2Z.id in Ha.
  exists c1. do 2 eexists.
  split; [exact H1|]. split; [exact H2|].
  split; [simpl length; fold n; lia|].
  split; [exact H3|].
  cbn [ConnectResult.Welcome ConnectResult.MsgLen c1].
  split; [destruct (ConnectResult.Welcome c); reflexivity|].
  split; [reflexivity|].
  unfold ConnectResult.DecodeMessage. cbn [ConnectResult.RawMsg].
  rewrite bytes_of_string_of, Ha, Hr.
  rewrite firstn_all2 by (fold n; lia).
  rewrite skipn_repeat_x00. reflexivity.
Qed.

Lemma ConnectResult_message_end_to_end_witness :
  exists c1 out r',
    ConnectResult.EncodeMessage "welcome" (ConnectResult.mk true (zero_array 31) 0)
      = Return None c1
    /\ ConnectResult.Encode nil_slice c1 = Return out c1
    /\ Z.of_nat (length out) = 9
    /\ ConnectResult.Decode (mkSlice out []) (ConnectResult.mk false (zero_array 31) 0)
       = Return None r'
    /\ ConnectResult.Welcome r' = true
    /\ ConnectResult.MsgLen r' = 7
    /\ bytes_of (ConnectResult.DecodeMessage r') = bytes_of "welcome" ++ repeat x00 24.
Proof.
  destruct (ConnectResult_message_end_to_end "welcome"
              (ConnectResult.mk true (zero_array 31) 0)
              (ConnectResult.mk false (zero_array 31) 0) nil_slice [])
    as (c1 & out & r' & H1 & H2 & H3 & H4 & H5 & H6 & H7).
  { simpl. lia. } { reflexivity. }
  exists c1, out, r'. repeat split; assumption.
Defined.

(** What a successful [Decode] says about its buffer. *)
Lemma ConnectResult_Decode_nil_inv
  (b0 b1 : byte) (rest spare : list byte) (c c' : ConnectResult.t) :
  ConnectResult.Decode (mkSlice (b0 :: b1 :: rest) spare) c = Return None c' ->
  Z_of_byte b1 <= 31 /\ Z_of_byte b1 <= Z.of_nat (length rest).
Proof.
  intros H. pose proof (Z_of_byte_range b1) as Hb.
  rewrite ConnectResult_Decode_run in H.
  destruct (_ <? uint8 _) eqn:E; [discriminate|]. apply Z.ltb_ge in E.
  destruct (window 31 0 (Z_of_byte b1)) eqn:W; [|discriminate].
  assert (Hs : Z_of_byte b1 <= 31).
  { destruct (Z.le_gt_cases (Z_of_byte b1) 31) as [Hs|Hbg]; [exact Hs|].
    rewrite window_beyond in W by (simpl; lia). discriminate. }
  split; [exact Hs|].
  rewrite uint8_no_wrap in E by lia.
  unfold len in E. simpl length in E. lia.
Qed.

(** A buffer that [Decode] accepts is accepted, with the same result, when
    more bytes follow it. *)
Theorem ConnectResult_Decode_ignores_trailing_bytes
  (l extra spare spare' : list byte) (c c' : ConnectResult.t) :
  ConnectResult.Decode (mkSlice l spare) c = Return None c' ->
  ConnectResult.Decode (mkSlice (l ++ extra) spare') c = Return None c'.
Proof.
  intros H.
  destruct l as [|b0 [|b1 rest]];
    try (rewrite ConnectResult_Decode_short in H by (vm_compute; reflexivity); discriminate).
  pose proof (Z_of_byte_range b1) as Hb.
  destruct (ConnectResult_Decode_nil_inv _ _ _ _ _ _ H) as [Hs Hp].
  destruct (ConnectResult_Decode_ok b0 b1 rest spare c Hs Hp) as (a & Ha & Hca).
  destruct (ConnectResult_Decode_ok b0 b1 (rest ++ extra) spare' c Hs) as (a' & Ha' & Hca').
  { rewrite length_app. lia. }
  rewrite Ha in H. injection H as <-.
  change ((b0 :: b1 :: rest) ++ extra) with (b0 :: b1 :: rest ++ extra).
  rewrite Ha'. do 2 f_equal. apply array_ext.
  rewrite Hca, Hca', firstn_app.
  replace (Z.to_nat (Z_of_byte b1) - length rest)%nat with 0%nat by lia.
  rewrite firstn_O, app_nil_r. reflexivity.
Qed.

Lemma ConnectResult_Decode_ignores_trailing_bytes_witness :
  exists c',
    ConnectResult.Decode (slice_of [x01; x02; x61; x62]) (ConnectResult.mk false (zero_array 31) 0)
    = Return None c'
    /\ ConnectResult.Decode (slice_of ([x01; x02; x61; x62] ++ [xff; xff]))
         (ConnectResult.mk false (zero_array 31) 0)
       = Return None c'.
Proof.
  destruct (ConnectResult_Decode_ok x01 x02 [x61; x62] []
              (ConnectResult.mk false (zero_array 31) 0)) as (a & H & _);
    [vm_compute; congruence | vm_compute; congruence |].
  eexists. split; [exact H|].
  exact (ConnectResult_Decode_ignores_trailing_bytes _ [xff; xff] [] [] _ _ H).
Defined.

(** Decoding and encoding again gives back the declared part of the buffer
    with its first byte normalised: any first byte other than 0 comes back
    as 1. *)
Theorem ConnectResult_Decode_then_Encode
  (b0 b1 : byte) (rest spare : list byte) (out : slice) (c c' : ConnectResult.t) :
  ConnectResult.Decode (mkSlice (b0 :: b1 :: rest) spare) c = Return None c' ->
  ConnectResult.Encode out c'
  = Return ((if 0 <? Z_of_byte b0 then x01 else x00) :: b1
              :: firstn (Z.to_nat (Z_of_byte b1)) rest) c'.
Proof.
  intros H.
  pose proof (Z_of_byte_range b1) as Hb.
  destruct (ConnectResult_Decode_nil_inv _ _ _ _ _ _ H) as [Hs Hp].
  destruct (ConnectResult_Decode_ok b0 b1 rest spare c Hs Hp) as (a & Ha & Hca).
  rewrite Ha in H. injection H as <-.
  rewrite ConnectResult_Encode_run by (cbn [ConnectResult.MsgLen]; lia).
  cbn [ConnectResult.Welcome ConnectResult.MsgLen ConnectResult.RawMsg].
  rewrite byte_of_Z_of_byte, Hca, firstn_app, firstn_firstn, Nat.min_id.
  rewrite length_firstn.
  replace (Z.to_nat (Z_of_byte b1) - Nat.min (Z.to_nat (Z_of_byte b1)) (length rest))%nat
    with 0%nat by lia.
  rewrite firstn_O, app_nil_r. reflexivity.
Qed.

Lemma ConnectResult_Decode_then_Encode_witness :
  exists c',
    ConnectResult.Decode (slice_of [xff; x02; x61; x62; x63]) (ConnectResult.mk false (zero_array 31) 0)
    = Return None c'
    /\ ConnectResult.Encode nil_slice c' = Return [x01; x02; x61; x62] c'.
Proof.
  destruct (ConnectResult_Decode_ok xff x02 [x61; x62; x63] []
              (ConnectResult.mk false (zero_array 31) 0)) as (a & H & _);
    [vm_compute; congruence | vm_compute; congruence |].
  eexists. split; [exact H|].
  exact (ConnectResult_Decode_then_Encode _ _ _ _ nil_slice _ _ H).
Defined.

(* ================================================================== *)
(** ** Len and the size of an encoding *)
(* ================================================================== *)

(** What [Len] counts differs between the three messages: for Hello it is
    the size of the encoding (22); for Connect it is the size of a
    successful encoding less the four header bytes; for ConnectResult it is
    the size of the encoding less one byte. *)
Theorem Len_and_encoded_size :
  forall (h : Hello.t) (c : Connect.t) (r : ConnectResult.t) (buf : slice),
    (Hello.Len h = 22 /\ Z.of_nat (length (Hello.Encode h buf)) = Hello.Len h)
    /\ (forall out, Connect.Encode c buf = (out, None) ->
          Z.of_nat (length out) = Connect.Len c + 4)
    /\ (forall out r', ConnectResult.Encode buf r = Return out r' ->
          Z.of_nat (length out) = ConnectResult.Len r + 1).
Proof.
  intros h c r buf. split; [|split].
  - rewrite Hello_Len, Hello_Encode_length. split; reflexivity.
  - intros out H.
    destruct (Connect_Encode_nil_inv _ _ _ H) as [Hi Hs].
    destruct (Connect_Encode_shape c buf Hi Hs) as (a0 & a1 & a2 & a3 & E & _ & _).
    rewrite E in H. injection H as <-.
    unfold Connect.Len. simpl length. rewrite length_app. lia.
  - intros out r' H.
    destruct (Z.lt_ge_cases (ConnectResult.MsgLen r) 0) as [Hneg|Hpos].
    { rewrite ConnectResult_Encode_panics in H by (left; exact Hneg). discriminate. }
    destruct (Z.lt_ge_cases 31 (ConnectResult.MsgLen r)) as [Hbig|Hsmall].
    { rewrite ConnectResult_Encode_panics in H by (right; exact Hbig). discriminate. }
    rewrite ConnectResult_Encode_run in H by lia. injection H as <- _.
    pose proof (cells_length (ConnectResult.RawMsg r)) as Hc.
    unfold ConnectResult.Len. simpl length. rewrite length_firstn. lia.
Qed.
